(** * llm-code-context-generator: the discovery engine and its callers

    A shallow embedding of [src/llm_code_context_generator/main.py]:
    the policy sets, [load_config], [discover_files] and [main], together
    with the parts of [os.path], [os.walk] and the text codec they call.

    Conventions of the embedding.
    - A Python [str] is a Rocq [string] holding its UTF-8 bytes.  Every
      string operation the program uses ([==], [startswith], [replace] of
      a separator, [rfind] of an ASCII character, slicing at the found
      index, [lstrip('.')]) acts on ASCII characters only and therefore
      commutes with that encoding.
    - The platform is POSIX: [os.path] is [posixpath], [os.sep] is "/".
    - A Python [set] of strings is a [gset string]; a [dict] with string
      keys is a [gmap string _].
    - Mutable set objects live in a heap, so that aliasing between the
      module-level defaults and the per-run configuration is visible. *)

From Stdlib Require Import ZArith Ascii String.
From stdpp Require Import base gmap sets list strings option pretty.

Local Open Scope Z_scope.

(** ** Python string primitives *)

Module Str.

Definition startswith (p s : string) : bool := String.prefix p s.

Fixpoint last_is (c : ascii) (s : string) : bool :=
  match s with
  | EmptyString => false
  | String a EmptyString => Ascii.eqb a c
  | String _ s' => last_is c s'
  end.

(** [s.replace(a, b)] for one-character [a] and [b]. *)
Fixpoint replace (a b : ascii) (s : string) : string :=
  match s with
  | EmptyString => EmptyString
  | String x s' => String (if Ascii.eqb x a then b else x) (replace a b s')
  end.

Fixpoint contains (c : ascii) (s : string) : bool :=
  match s with
  | EmptyString => false
  | String x s' => Ascii.eqb x c || contains c s'
  end.

(** [s.rfind(c)]: index of the last occurrence, [-1] when there is none. *)
Fixpoint rfind_from (c : ascii) (s : string) (i acc : Z) : Z :=
  match s with
  | EmptyString => acc
  | String x s' => rfind_from c s' (i + 1) (if Ascii.eqb x c then i else acc)
  end.
Definition rfind (c : ascii) (s : string) : Z := rfind_from c s 0 (-1).

(** [s[:i]] and [s[i:]] for [0 <= i]. *)
Fixpoint take (n : nat) (s : string) : string :=
  match n, s with
  | S n', String x s' => String x (take n' s')
  | _, _ => EmptyString
  end.
Fixpoint drop (n : nat) (s : string) : string :=
  match n, s with
  | S n', String _ s' => drop n' s'
  | _, _ => s
  end.

(** [s[i:i+1]]: the empty string past the end. *)
Definition at_ (i : nat) (s : string) : string := take 1 (drop i s).

(** [s.lstrip(c)]. *)
Fixpoint lstrip (c : ascii) (s : string) : string :=
  match s with
  | String x s' => if Ascii.eqb x c then lstrip c s' else s
  | EmptyString => EmptyString
  end.

(** [s.split(c)]: always at least one piece. *)
Fixpoint split_go (c : ascii) (cur : string) (s : string) : list string :=
  match s with
  | EmptyString => [String.rev cur]
  | String x s' =>
      if Ascii.eqb x c then String.rev cur :: split_go c EmptyString s'
      else split_go c (String x cur) s'
  end.
Definition split (c : ascii) (s : string) : list string := split_go c EmptyString s.

(** [sep.join(l)]. *)
Definition join (sep : string) (l : list string) : string := String.concat sep l.

(** Truthiness of a [str]. *)
Definition nonempty (s : string) : bool :=
  match s with EmptyString => false | _ => true end.

End Str.

(** ** [posixpath] *)

Module Path.

Definition sep : ascii := "/"%char.
Definition extsep : ascii := "."%char.
Definition sep_s : string := "/".
Definition curdir : string := ".".
Definition pardir : string := "..".

Definition isabs (p : string) : bool := Str.startswith sep_s p.

(** [os.path.join(a, b)]. *)
Definition join (a b : string) : string :=
  if Str.startswith sep_s b then b
  else if negb (Str.nonempty a) || Str.last_is sep a then a +:+ b
  else a +:+ sep_s +:+ b.

(** [os.path.join(a, *p)]. *)
Definition join_all (a : string) (p : list string) : string := foldl join a p.

(** The loop of [normpath] over the split components; [new_comps] is
    kept reversed, so its last element is the head. *)
Fixpoint norm_comps (initial_slashes : bool) (new_comps : list string)
         (comps : list string) : list string :=
  match comps with
  | [] => rev new_comps
  | comp :: rest =>
      if bool_decide (comp = "") || bool_decide (comp = curdir)
      then norm_comps initial_slashes new_comps rest
      else if negb (bool_decide (comp = pardir))
              || (negb initial_slashes && bool_decide (new_comps = []))
              || match new_comps with x :: _ => bool_decide (x = pardir) | [] => false end
      then norm_comps initial_slashes (comp :: new_comps) rest
      else norm_comps initial_slashes (tail new_comps) rest
  end.

Definition normpath (path : string) : string :=
  if negb (Str.nonempty path) then curdir
  else
    let initial_slashes : nat :=
      if Str.startswith sep_s path then
        if Str.startswith "//" path && negb (Str.startswith "///" path)
        then 2%nat else 1%nat
      else 0%nat in
    let comps := norm_comps (negb (Nat.eqb initial_slashes 0)) [] (Str.split sep path) in
    let p := Str.join sep_s comps in
    let p := match initial_slashes with
             | O => p
             | 1%nat => "/" +:+ p
             | _ => "//" +:+ p
             end in
    if Str.nonempty p then p else curdir.

Definition abspath (cwd path : string) : string :=
  normpath (if isabs path then path else join cwd path).

(** [os.path.commonprefix] on two lists of components. *)
Fixpoint commonprefix (l1 l2 : list string) : list string :=
  match l1, l2 with
  | x :: l1', y :: l2' => if bool_decide (x = y) then x :: commonprefix l1' l2' else []
  | _, _ => []
  end.

(** [os.path.relpath(path, start)].  Python raises [ValueError] on an
    empty [path]; the program only passes [join dirpath name] with a
    name returned by the directory listing, which is never empty, so
    the guard is left out (see [join_nonempty]). *)
Definition relpath (cwd path start : string) : string :=
  let start_list := filter (λ x, Is_true (Str.nonempty x)) (Str.split sep (abspath cwd start)) in
  let path_list := filter (λ x, Is_true (Str.nonempty x)) (Str.split sep (abspath cwd path)) in
  let i := length (commonprefix start_list path_list) in
  let rel_list := replicate (length start_list - i)%nat pardir ++ drop i path_list in
  match rel_list with
  | [] => curdir
  | x :: rest => join_all x rest
  end.

(** [os.path.basename]. *)
Definition basename (p : string) : string :=
  Str.drop (Z.to_nat (Str.rfind sep p + 1)) p.

(** The loop of [genericpath._splitext] that skips leading dots: is some
    character of [p] in positions [filenameIndex .. dotIndex-1] not a
    dot?  [n] counts the remaining iterations. *)
Fixpoint splitext_scan (p : string) (filenameIndex : nat) (n : nat) : bool :=
  match n with
  | O => false
  | S n' =>
      if negb (bool_decide (Str.at_ filenameIndex p = "."))
      then true
      else splitext_scan p (S filenameIndex) n'
  end.

(** [os.path.splitext(p)]. *)
Definition splitext (p : string) : string * string :=
  let sepIndex := Str.rfind sep p in
  let dotIndex := Str.rfind extsep p in
  if (sepIndex <? dotIndex) &&
     splitext_scan p (Z.to_nat (sepIndex + 1)) (Z.to_nat (dotIndex - (sepIndex + 1)))
  then (Str.take (Z.to_nat dotIndex) p, Str.drop (Z.to_nat dotIndex) p)
  else (p, EmptyString).

End Path.


(** ** Built-in default collections (module level) *)

Definition DEFAULT_IGNORED_DIRS_init : gset string := list_to_set [
  ".git"; ".github"; ".vscode"; ".idea"; "node_modules"; "__pycache__"; "venv";
  ".venv"; "env"; ".env"; ".pytest_cache"; ".mypy_cache"; ".tox"; "htmlcov";
  "build"; "dist"; "target"; "out"; "bin"; "obj"; "wheels"; "dist-packages";
  "__MACOSX"; "*.egg-info"; "site-packages"; "docs_build"; "builddocs";
  "bower_components"; "jspm_packages" ].

Definition DEFAULT_IGNORED_FILES_init : gset string := list_to_set [
  ".env"; ".env.local"; ".env.production"; ".env.development"; ".env.test"; ".env.*";
  "package-lock.json"; "yarn.lock"; "pnpm-lock.yaml";
  "poetry.lock"; "Pipfile.lock"; "composer.lock"; "Gemfile.lock"; "go.sum";
  "*.swp"; "*.swo"; "*.swn"; ".*.swp";
  "thumbs.db";
  ".travis.yml"; "circle.yml"; "appveyor.yml"; "Jenkinsfile" ].

Definition DEFAULT_IGNORED_EXTENSIONS_init : gset string := list_to_set [
  ".png"; ".jpg"; ".jpeg"; ".gif"; ".svg"; ".ico"; ".webp"; ".bmp"; ".tiff"; ".psd";
  ".mp4"; ".mov"; ".avi"; ".mkv"; ".webm"; ".flv"; "wmv";
  ".mp3"; ".wav"; ".ogg"; ".flac"; ".m4a"; "aac";
  ".woff"; ".woff2"; ".ttf"; ".otf"; ".eot";
  ".zip"; ".rar"; ".tar"; ".gz"; ".7z"; ".bz2"; "tgz";
  ".pdf"; ".docx"; ".xlsx"; ".pptx"; ".epub"; ".mobi"; ".csv"; ".xls"; ".doc"; ".ppt";
  ".pyc"; ".pyo"; ".pyd"; ".o"; ".so"; ".a";
  ".log"; ".lock"; ".db"; ".sqlite3"; ".sqlitedb"; ".dump"; "bak"; ".tmp"; ".dat";
  ".DS_Store";
  ".class";
  ".dll"; ".exe"; ".lib";
  ".bin"; ".iso"; ".out"; ".elf";
  ".obj"; ".o";
  ".jar";
  ".wasm";
  ".key"; ".pem"; ".crt"; ".cer"; ".p12"; ".pfx"; ".jks"; ".p7b"; "gpg";
  ".gitignore"; ".gitattributes"; ".dockerignore"; ".gitkeep";
  ".md"; ".markdown"; ".rst";
  ".sh"; ".bat"; ".ps1"; ".cmd";
  ".xml"; ".json"; ".yaml"; ".yml"; ".toml"; ".ini" ].

Definition DEFAULT_ALLOWED_DIRS_init : gset string := ∅.
Definition DEFAULT_ALLOWED_FILES_init : gset string := ∅.
Definition DEFAULT_ALLOWED_EXTENSIONS_init : gset string := ∅.

(** ** The resolved policy and the gitignore matcher *)

(** The six sets the discovery engine reads out of the [config] dict. *)
Record policy := Policy {
  allowed_dirs : gset string;
  allowed_files : gset string;
  allowed_extensions : gset string;
  ignored_dirs : gset string;
  ignored_files : gset string;
  ignored_extensions : gset string;
}.

Definition default_policy : policy := {|
  allowed_dirs := DEFAULT_ALLOWED_DIRS_init;
  allowed_files := DEFAULT_ALLOWED_FILES_init;
  allowed_extensions := DEFAULT_ALLOWED_EXTENSIONS_init;
  ignored_dirs := DEFAULT_IGNORED_DIRS_init;
  ignored_files := DEFAULT_IGNORED_FILES_init;
  ignored_extensions := DEFAULT_IGNORED_EXTENSIONS_init;
|}.

(** A compiled [pathspec.PathSpec].  The library is external: only what
    the program observes of it is kept, the number of compiled patterns
    ([len(spec)], which decides the truth value of [if spec:]) and the
    answer of [spec.match_file]. *)
Record PathSpec := {
  spec_len : nat;
  match_file : string → bool;
}.

(** [if spec:] for [spec : Optional[PathSpec]]: [None] is false and so is
    a [PathSpec] without patterns. *)
Definition spec_truthy (spec : option PathSpec) : bool :=
  match spec with
  | None => false
  | Some s => negb (Nat.eqb (spec_len s) 0)
  end.

(** [spec and spec.match_file(path)] *)
Definition spec_matches (spec : option PathSpec) (path : string) : bool :=
  match spec with
  | None => false
  | Some s => negb (Nat.eqb (spec_len s) 0) && match_file s path
  end.

(** ** The directory tree seen by [os.walk] *)

(** What [os.scandir] reports below one directory: the names that go
    into [dirnames], each with the tree [os.walk] finds when it descends
    into it, and the names of the other entries.  A name of [dirnames]
    carries [None] when [os.walk] yields nothing for it: a symbolic link
    to a directory (links are not followed) or a directory that cannot be
    listed (the error is swallowed). *)
#[local] Unset Elimination Schemes.
Inductive dir : Type :=
  | Dir (entries : list (string * option dir)) (files : list string).
#[local] Set Elimination Schemes.

Section Walk.
Context {A : Type}.
(** The body of the [for dirpath, dirnames, filenames in os.walk(..)]
    loop: it receives the triple, returns the list it leaves in
    [dirnames] (the loop edits it in place) and its own result. *)
Variable body : string → list string → list string → list string * A.

(** [os.walk(top, topdown=True)] driving [body]: the triple of [top] is
    yielded first, then every sub-directory whose name is still in
    [dirnames] is walked, in listing order, under [join top name]. *)
Fixpoint os_walk (top : string) (t : dir) : list A :=
  match t with
  | Dir entries files =>
      let r := body top (map fst entries) files in
      r.2 :: flat_map (λ e, if bool_decide (e.1 ∈ r.1)
                            then match e.2 with
                                 | Some sub => os_walk (Path.join top e.1) sub
                                 | None => []
                                 end
                            else []) entries
  end.
End Walk.

(** ** [discover_files] *)

Section Discover.
Variable cwd : string.
Variable root_path : string.
Variable config : policy.
Variable spec : option PathSpec.

(** [os.path.relpath(os.path.join(dirpath, name), root_path).replace(os.path.sep, '/')] *)
Definition relative_path (dirpath name : string) : string :=
  Str.replace Path.sep "/"%char (Path.relpath cwd (Path.join dirpath name) root_path).

(** [allowed_paths = [p.replace(os.path.sep, '/') for p in allowed_dirs]] *)
Definition allowed_paths : list string :=
  map (Str.replace Path.sep "/"%char) (elements (allowed_dirs config)).

(** First loop over [dirnames]: names ignored by the configuration. *)
Definition dirs_to_remove_config (dirpath : string) (dirnames : list string) : gset string :=
  foldl (λ acc d,
           let relative_dir_path := relative_path dirpath d in
           if bool_decide (d ∈ ignored_dirs config)
              || bool_decide (relative_dir_path ∈ ignored_dirs config)
           then {[ d ]} ∪ acc else acc)
        ∅ dirnames.

(** Second loop, run only [if spec:]: names matched by [.gitignore]. *)
Definition dirs_to_remove_spec (dirpath : string) (dirnames : list string)
           (dirs_to_remove : gset string) : gset string :=
  if spec_truthy spec then
    foldl (λ acc d,
             if bool_decide (d ∈ acc) then acc
             else
               let relative_dir_path := relative_path dirpath d in
               if match spec with
                  | Some s => match_file s (relative_dir_path +:+ "/")
                  | None => false
                  end
               then {[ d ]} ∪ acc else acc)
          dirs_to_remove dirnames
  else dirs_to_remove.

Definition dirs_to_remove (dirpath : string) (dirnames : list string) : gset string :=
  dirs_to_remove_spec dirpath dirnames (dirs_to_remove_config dirpath dirnames).

(** [dirnames[:] = [d for d in dirnames if d not in dirs_to_remove]] *)
Definition prune_dirnames (dirpath : string) (dirnames : list string) : list string :=
  let removed := dirs_to_remove dirpath dirnames in
  filter (λ d, d ∉ removed) dirnames.

(** [is_force_allowed] *)
Definition is_force_allowed (relpath extension : string) : bool :=
  bool_decide (relpath ∈ allowed_files config)
  || (Str.nonempty extension && bool_decide (extension ∈ allowed_extensions config)).

(** [any(relative_path.startswith(p) for p in allowed_paths)] *)
Definition is_allowed (relpath : string) : bool :=
  existsb (λ p, Str.startswith p relpath) allowed_paths.

(** The ignore check of step 3. *)
Definition is_ignored (filename relpath extension : string) : bool :=
  bool_decide (filename ∈ ignored_files config)
  || bool_decide (relpath ∈ ignored_files config)
  || (Str.nonempty extension && bool_decide (extension ∈ ignored_extensions config)).

(** One iteration of [for filename in filenames]: is [full_path]
    appended to [files_to_process]? *)
Definition file_included (dirpath filename : string) : bool :=
  let relpath := relative_path dirpath filename in
  let extension := (Path.splitext filename).2 in
  if is_force_allowed relpath extension then true
  else if negb (bool_decide (allowed_paths = [])) && negb (is_allowed relpath) then false
  else if is_ignored filename relpath extension then false
  else if spec_matches spec relpath then false
  else true.

(** The file loop: the full paths appended for one directory. *)
Definition files_appended (dirpath : string) (filenames : list string) : list string :=
  map (Path.join dirpath) (filter (λ f, Is_true (file_included dirpath f)) filenames).

(** The whole loop body for one yielded triple. *)
Definition walk_body (dirpath : string) (dirnames filenames : list string)
  : list string * list string :=
  (prune_dirnames dirpath dirnames, files_appended dirpath filenames).

Definition discover_files (t : dir) : list string :=
  concat (os_walk walk_body root_path t).

(** The directories the traversal enters, by [dirpath]. *)
Definition visited_dirs (t : dir) : list string :=
  os_walk (λ dirpath dirnames _, (prune_dirnames dirpath dirnames, dirpath)) root_path t.

End Discover.


(** ** Structure of the tree: induction, positions of files *)

Section DirInd.
Variable P : dir → Prop.
Hypothesis HDir : ∀ entries files,
    Forall (λ e, from_option P True e.2) entries → P (Dir entries files).

Fixpoint dir_ind (t : dir) : P t :=
  match t with
  | Dir entries files =>
      HDir entries files
        ((fix go (es : list (string * option dir))
            : Forall (λ e, from_option P True e.2) es :=
            match es with
            | [] => List.Forall_nil _
            | e :: es' =>
                List.Forall_cons _ e es'
                  (match e.2 as o return from_option P True o with
                   | Some sub => dir_ind sub
                   | None => I
                   end)
                  (go es')
            end) entries)
  end.
End DirInd.

(** [file_at t p f]: the directory reached from [t] along the names [p]
    lists a file named [f]. *)
Inductive file_at : dir → list string → string → Prop :=
  | file_here entries files f :
      f ∈ files → file_at (Dir entries files) [] f
  | file_below entries files d sub p f :
      (d, Some sub) ∈ entries → file_at sub p f →
      file_at (Dir entries files) (d :: p) f.

(** [dir_at t p]: [t] has a directory at the end of the names [p]. *)
Inductive dir_at : dir → list string → Prop :=
  | dir_here t : dir_at t []
  | dir_below entries files d sub p :
      (d, Some sub) ∈ entries → dir_at sub p →
      dir_at (Dir entries files) (d :: p).

Section Structure.
Variable cwd : string.
Variable root_path : string.
Variable config : policy.
Variable spec : option PathSpec.

(** The pruning decision for a sub-directory [d] of [dirpath], as one
    test: what the two loops over [dirnames] amount to for one name
    (lemma [elem_of_prune_dirnames]). *)
Definition dir_pruned (dirpath d : string) : bool :=
  let rel := relative_path cwd root_path dirpath d in
  bool_decide (d ∈ ignored_dirs config)
  || bool_decide (rel ∈ ignored_dirs config)
  || spec_matches spec (rel +:+ "/").

(** Every directory along [p], starting below [top], survives pruning. *)
Fixpoint path_kept (top : string) (p : list string) : bool :=
  match p with
  | [] => true
  | d :: p' => negb (dir_pruned top d) && path_kept (Path.join top d) p'
  end.
End Structure.

Definition scenario_A : dir :=
  Dir [(".git", Some (Dir [] ["config"]))] ["a.py"].

(** ** Names a directory listing can return *)

(** A name returned by [os.scandir] is not empty, holds no separator and
    is neither "." nor "..". *)
Definition valid_name (s : string) : bool :=
  Str.nonempty s && negb (Str.contains Path.sep s)
  && negb (bool_decide (s = Path.curdir)) && negb (bool_decide (s = Path.pardir)).

(** Every name in the tree is one a file system can hold. *)
Fixpoint wf_dir (t : dir) : bool :=
  match t with
  | Dir entries files =>
      forallb valid_name files
      && forallb (λ e, valid_name e.1
                       && match e.2 with Some sub => wf_dir sub | None => true end)
                 entries
  end.

(** [top] as a prefix ready for the next component: what [Path.join top]
    puts in front of a name. *)
Definition join_base (top : string) : string :=
  if negb (Str.nonempty top) || Str.last_is Path.sep top then top
  else top +:+ Path.sep_s.

(** The components [p] then [f], separated by "/". *)
Fixpoint rel_string (p : list string) (f : string) : string :=
  match p with
  | [] => f
  | d :: p' => d +:+ String Path.sep (rel_string p' f)
  end.

(** ** Concrete projects used in the examples *)

(** A matcher that matches every path it is asked about. *)
Definition spec_everything : PathSpec :=
  {| spec_len := 1; match_file := λ _, true |}.

(** Scenario D of the specification, made harsher: [secrets.env] is
    force-allowed by extension while its name and its extension are
    ignored, a gitignore rule matches it and it lies outside the only
    allowed directory. *)
Definition scenario_D_policy : policy := {|
  allowed_dirs := {[ "src/" ]};
  allowed_files := ∅;
  allowed_extensions := {[ ".env" ]};
  ignored_dirs := DEFAULT_IGNORED_DIRS_init;
  ignored_files := {[ "secrets.env" ]} ∪ DEFAULT_IGNORED_FILES_init;
  ignored_extensions := {[ ".env" ]} ∪ DEFAULT_IGNORED_EXTENSIONS_init;
|}.
Definition scenario_D : dir := Dir [] ["secrets.env"; "notes.txt"].

(** A force-allowed file below an ignored directory. *)
Definition pruned_policy : policy := {|
  allowed_dirs := ∅;
  allowed_files := {[ "node_modules/pkg/index.js" ]};
  allowed_extensions := {[ ".js" ]};
  ignored_dirs := DEFAULT_IGNORED_DIRS_init;
  ignored_files := DEFAULT_IGNORED_FILES_init;
  ignored_extensions := DEFAULT_IGNORED_EXTENSIONS_init;
|}.
Definition pruned_tree : dir :=
  Dir [("node_modules", Some (Dir [("pkg", Some (Dir [] ["index.js"]))] []));
       ("lib", Some (Dir [] ["util.js"]))]
      ["a.py"].

(** Scenario E: [allowed_dirs = ["src/"]]. *)
Definition scenario_E_policy : policy := {|
  allowed_dirs := {[ "src/" ]};
  allowed_files := ∅;
  allowed_extensions := ∅;
  ignored_dirs := DEFAULT_IGNORED_DIRS_init;
  ignored_files := DEFAULT_IGNORED_FILES_init;
  ignored_extensions := DEFAULT_IGNORED_EXTENSIONS_init;
|}.
Definition scenario_E : dir :=
  Dir [("src", Some (Dir [] ["main.go"])); ("tools", Some (Dir [] ["build.go"]))]
      ["pyproject.toml"].

(** ** Policies derived from another one *)

Definition set_allowed_dirs (A : gset string) (c : policy) : policy := {|
  allowed_dirs := A;
  allowed_files := allowed_files c;
  allowed_extensions := allowed_extensions c;
  ignored_dirs := ignored_dirs c;
  ignored_files := ignored_files c;
  ignored_extensions := ignored_extensions c;
|}.

Definition set_extensions (AE IE : gset string) (c : policy) : policy := {|
  allowed_dirs := allowed_dirs c;
  allowed_files := allowed_files c;
  allowed_extensions := AE;
  ignored_dirs := ignored_dirs c;
  ignored_files := ignored_files c;
  ignored_extensions := IE;
|}.

Definition remove_ignored_dir (e : string) (c : policy) : policy := {|
  allowed_dirs := allowed_dirs c;
  allowed_files := allowed_files c;
  allowed_extensions := allowed_extensions c;
  ignored_dirs := ignored_dirs c ∖ {[ e ]};
  ignored_files := ignored_files c;
  ignored_extensions := ignored_extensions c;
|}.

Definition remove_ignored_file (e : string) (c : policy) : policy := {|
  allowed_dirs := allowed_dirs c;
  allowed_files := allowed_files c;
  allowed_extensions := allowed_extensions c;
  ignored_dirs := ignored_dirs c;
  ignored_files := ignored_files c ∖ {[ e ]};
  ignored_extensions := ignored_extensions c;
|}.

(** [allowed_dirs = ["src"]], no trailing slash. *)
Definition prefix_policy : policy := set_allowed_dirs {[ "src" ]} default_policy.
Definition prefix_tree : dir :=
  Dir [("src", Some (Dir [] ["a.py"]));
       ("src2", Some (Dir [] ["main.go"]));
       ("other", Some (Dir [("src", Some (Dir [] ["deep.py"]))] ["x.py"]));
       ("linked", None)]
      ["srcfile.py"; "main.py"].

(** Names that look like matches of the wildcard entries of the default
    sets, next to names spelled exactly like those entries. *)
Definition wildcard_tree : dir :=
  Dir [("pkg.egg-info", Some (Dir [] ["PKG-INFO"]));
       ("*.egg-info", Some (Dir [] ["y.py"]));
       ("build", Some (Dir [] ["x.py"]))]
      ["editor.swp"; ".env.staging"; "*.swp"; ".env.*"; ".env"].

(** Dotfiles whose names are entries of [DEFAULT_IGNORED_EXTENSIONS]. *)
Definition dotfile_tree : dir :=
  Dir [("sub", Some (Dir [] [".dockerignore"; ".gitignore"]))]
      [".gitignore"; ".gitattributes"; "notes.md"].

(** ** Set objects, the log and the files written *)

(** Python sets are objects: the module-level defaults and the values of
    the [config] dict are references into a heap of sets.  A reference is
    an index; allocation appends. *)
Inductive level := INFO | WARNING | ERROR.

Record world := World {
  w_heap : list (gset string);
  w_log : list (level * string);
  (** Files this process has opened for writing, with what it wrote. *)
  w_files : gmap string string;
}.

(** The module-level names: fixed references. *)
Definition DEFAULT_IGNORED_DIRS : nat := 0.
Definition DEFAULT_IGNORED_FILES : nat := 1.
Definition DEFAULT_IGNORED_EXTENSIONS : nat := 2.
Definition DEFAULT_ALLOWED_DIRS : nat := 3.
Definition DEFAULT_ALLOWED_FILES : nat := 4.
Definition DEFAULT_ALLOWED_EXTENSIONS : nat := 5.

(** The heap once the module is imported. *)
Definition module_heap : list (gset string) :=
  [ DEFAULT_IGNORED_DIRS_init; DEFAULT_IGNORED_FILES_init;
    DEFAULT_IGNORED_EXTENSIONS_init; DEFAULT_ALLOWED_DIRS_init;
    DEFAULT_ALLOWED_FILES_init; DEFAULT_ALLOWED_EXTENSIONS_init ].

Definition initial_world : world :=
  {| w_heap := module_heap; w_log := []; w_files := ∅ |}.

(** Outcome of a statement: a value or a raised exception (its text). *)
Inductive res (A : Type) : Type :=
  | Ok (a : A)
  | Raise (e : string).
Arguments Ok {A} a.
Arguments Raise {A} e.

Definition M (A : Type) : Type := world → res A * world.

Definition ret {A} (a : A) : M A := λ w, (Ok a, w).
Definition bind {A B} (m : M A) (k : A → M B) : M B :=
  λ w, match m w with
       | (Ok a, w') => k a w'
       | (Raise e, w') => (Raise e, w')
       end.
Definition raise {A} (e : string) : M A := λ w, (Raise e, w).
(** [try: m except Exception as e: h e] *)
Definition try_except {A} (m : M A) (h : string → M A) : M A :=
  λ w, match m w with
       | (Ok a, w') => (Ok a, w')
       | (Raise e, w') => h e w'
       end.

#[global] Instance M_ret : MRet M := @ret.
#[global] Instance M_bind : MBind M := λ A B k m, bind m k.

(** [logging.<level>(msg)] *)
Definition log (l : level) (msg : string) : M unit :=
  λ w, (Ok (), {| w_heap := w_heap w; w_log := w_log w ++ [(l, msg)];
                  w_files := w_files w |}).

(** Reading a set object. *)
Definition deref (r : nat) : M (gset string) :=
  λ w, (Ok (w_heap w !!! r), w).

(** A new set object holding [s]. *)
Definition alloc (s : gset string) : M nat :=
  λ w, (Ok (length (w_heap w)),
        {| w_heap := w_heap w ++ [s]; w_log := w_log w; w_files := w_files w |}).

(** [r.copy()] and [set(r)] for a set object [r]. *)
Definition set_copy (r : nat) : M nat := s ← deref r; alloc s.

(** [set(xs)] for a list [xs]. *)
Definition set_of_list (xs : list string) : M nat := alloc (list_to_set xs).

(** [r.update(xs)]: in place. *)
Definition set_update (r : nat) (xs : list string) : M unit :=
  λ w, (Ok (), {| w_heap := <[r := (w_heap w !!! r) ∪ list_to_set xs]> (w_heap w);
                  w_log := w_log w; w_files := w_files w |}).

(** ** [load_config] *)

(** The [config] dict: six keys, each bound to a set object. *)
Record config_dict := {
  ref_allowed_dirs : nat;
  ref_allowed_files : nat;
  ref_allowed_extensions : nat;
  ref_ignored_dirs : nat;
  ref_ignored_files : nat;
  ref_ignored_extensions : nat;
}.

(** The sets a [config] dict denotes in a heap. *)
Definition resolve (h : list (gset string)) (c : config_dict) : policy := {|
  allowed_dirs := h !!! ref_allowed_dirs c;
  allowed_files := h !!! ref_allowed_files c;
  allowed_extensions := h !!! ref_allowed_extensions c;
  ignored_dirs := h !!! ref_ignored_dirs c;
  ignored_files := h !!! ref_ignored_files c;
  ignored_extensions := h !!! ref_ignored_extensions c;
|}.

(** What [tomllib.load] finds at a path: no file, a file it cannot
    read or parse, or the parsed document, seen as tables of tables.  The
    keys of [[tool.llmcontext]] carry arrays of strings, as the
    configuration format prescribes; other value types are not modelled. *)
Inductive toml_file :=
  | TomlAbsent
  | TomlInvalid (err : string)
  | TomlData (data : gmap string (gmap string (gmap string (list string)))).

(** What [load_gitignore_spec] finds at a path. *)
Inductive gitignore_file :=
  | GitignoreAbsent
  | GitignoreInvalid (err : string)
  | GitignoreSpec (s : PathSpec).

(** The operating system as the program sees it during one run. *)
Record os_env := {
  e_cwd : string;
  (** [os.path.isdir] and the tree [os.walk] finds there. *)
  e_dir : string → option dir;
  (** Is a TOML library importable? *)
  e_tomllib : bool;
  e_toml : string → toml_file;
  e_gitignore : string → gitignore_file;
  (** The bytes of a file, [None] when opening or reading it fails. *)
  e_read : string → option string;
  (** Can the path be opened for writing? *)
  e_writable : string → bool;
}.

Definition CONFIG_FILENAME : string := "pyproject.toml".

(** [set(user_config.get(key, DEFAULT))] *)
Definition set_of_user_or_default (user_config : gmap string (list string))
           (key : string) (dflt : nat) : M nat :=
  match user_config !! key with
  | Some xs => set_of_list xs
  | None => set_copy dflt
  end.

(** [config[key].update(user_config.get(key, []))] *)
Definition update_from_user (user_config : gmap string (list string))
           (key : string) (r : nat) : M unit :=
  set_update r (default [] (user_config !! key)).

(** [pyproject_data.get("tool", {}).get("llmcontext", {})] *)
Definition user_config_of (data : gmap string (gmap string (gmap string (list string))))
  : gmap string (list string) :=
  default ∅ (default ∅ (data !! "tool") !! "llmcontext").

(** The dict literal that opens [load_config]: six copies. *)
Definition default_config : M config_dict :=
  ad ← set_copy DEFAULT_ALLOWED_DIRS;
  af ← set_copy DEFAULT_ALLOWED_FILES;
  ae ← set_copy DEFAULT_ALLOWED_EXTENSIONS;
  id ← set_copy DEFAULT_IGNORED_DIRS;
  if_ ← set_copy DEFAULT_IGNORED_FILES;
  ie ← set_copy DEFAULT_IGNORED_EXTENSIONS;
  mret {| ref_allowed_dirs := ad; ref_allowed_files := af;
          ref_allowed_extensions := ae; ref_ignored_dirs := id;
          ref_ignored_files := if_; ref_ignored_extensions := ie |}.

Definition load_config (env : os_env) (root_path : string) : M config_dict :=
  config ← default_config;
  let config_path := Path.join root_path CONFIG_FILENAME in
  if e_tomllib env then
    match e_toml env config_path with
    | TomlAbsent =>
        log INFO ("No " +:+ CONFIG_FILENAME +:+ " found. Using default ignore lists.");;
        mret config
    | TomlInvalid err =>
        log INFO ("Loading project configuration from: " +:+ CONFIG_FILENAME);;
        log ERROR ("Error reading or parsing " +:+ CONFIG_FILENAME +:+ ": " +:+ err);;
        mret config
    | TomlData pyproject_data =>
        log INFO ("Loading project configuration from: " +:+ CONFIG_FILENAME);;
        let user_config := user_config_of pyproject_data in
        if negb (bool_decide (user_config = ∅)) then
          log INFO "Found [tool.llmcontext] section. Applying custom config.";;
          ad' ← set_of_user_or_default user_config "allowed_dirs" DEFAULT_ALLOWED_DIRS;
          af' ← set_of_user_or_default user_config "allowed_files" DEFAULT_ALLOWED_FILES;
          ae' ← set_of_user_or_default user_config "allowed_extensions"
                  DEFAULT_ALLOWED_EXTENSIONS;
          update_from_user user_config "ignored_dirs" (ref_ignored_dirs config);;
          update_from_user user_config "ignored_files" (ref_ignored_files config);;
          update_from_user user_config "ignored_extensions" (ref_ignored_extensions config);;
          mret {| ref_allowed_dirs := ad'; ref_allowed_files := af';
                  ref_allowed_extensions := ae';
                  ref_ignored_dirs := ref_ignored_dirs config;
                  ref_ignored_files := ref_ignored_files config;
                  ref_ignored_extensions := ref_ignored_extensions config |}
        else
          log INFO ("No [tool.llmcontext] section found in " +:+ CONFIG_FILENAME
                    +:+ ". Using defaults.");;
          mret config
    end
  else
    log WARNING "TOML library not found. Skipping pyproject.toml. Install with 'pip install tomli' for Python < 3.11";;
    mret config.

(** The references and the heap the dict literal leaves. *)
Definition fresh_config (h : list (gset string)) : config_dict := {|
  ref_allowed_dirs := length h;
  ref_allowed_files := length h + 1;
  ref_allowed_extensions := length h + 2;
  ref_ignored_dirs := length h + 3;
  ref_ignored_files := length h + 4;
  ref_ignored_extensions := length h + 5;
|}.
Definition with_copies (h : list (gset string)) : list (gset string) :=
  h ++ [ h !!! DEFAULT_ALLOWED_DIRS; h !!! DEFAULT_ALLOWED_FILES;
         h !!! DEFAULT_ALLOWED_EXTENSIONS; h !!! DEFAULT_IGNORED_DIRS;
         h !!! DEFAULT_IGNORED_FILES; h !!! DEFAULT_IGNORED_EXTENSIONS ].

(** ** The text codec of [open(..., encoding='utf-8', errors=...)] *)

Inductive errors_mode := Strict | Ignore.

Definition byte_in (lo hi : N) (c : ascii) : bool :=
  (lo <=? N_of_ascii c)%N && (N_of_ascii c <=? hi)%N.

(** The admissible second byte of a three- and of a four-byte sequence. *)
Definition second_of_3 (b0 b1 : ascii) : bool :=
  if byte_in 224 224 b0 then byte_in 160 191 b1
  else if byte_in 237 237 b0 then byte_in 128 159 b1
  else byte_in 128 191 b1.
Definition second_of_4 (b0 b1 : ascii) : bool :=
  if byte_in 240 240 b0 then byte_in 144 191 b1
  else if byte_in 244 244 b0 then byte_in 128 143 b1
  else byte_in 128 191 b1.

(** [bytes.decode('utf-8', errors)].  The result is again held as UTF-8
    bytes: a well-formed sequence is copied, an ill-formed byte raises
    [UnicodeDecodeError] ([None]) under [Strict] and is dropped under
    [Ignore]. *)
Fixpoint utf8_decode (errors : errors_mode) (s : string) : option string :=
  match s with
  | EmptyString => Some EmptyString
  | String b0 s1 =>
      let bad := match errors with
                 | Strict => None
                 | Ignore => utf8_decode errors s1
                 end in
      if byte_in 0 127 b0 then String b0 <$> utf8_decode errors s1
      else if byte_in 194 223 b0 then
        match s1 with
        | String b1 s2 =>
            if byte_in 128 191 b1
            then (λ r, String b0 (String b1 r)) <$> utf8_decode errors s2
            else bad
        | _ => bad
        end
      else if byte_in 224 239 b0 then
        match s1 with
        | String b1 (String b2 s3) =>
            if second_of_3 b0 b1 && byte_in 128 191 b2
            then (λ r, String b0 (String b1 (String b2 r))) <$> utf8_decode errors s3
            else bad
        | _ => bad
        end
      else if byte_in 240 244 b0 then
        match s1 with
        | String b1 (String b2 (String b3 s4)) =>
            if second_of_4 b0 b1 && byte_in 128 191 b2 && byte_in 128 191 b3
            then (λ r, String b0 (String b1 (String b2 (String b3 r))))
                   <$> utf8_decode errors s4
            else bad
        | _ => bad
        end
      else bad
  end.

(** Universal newlines on reading ([newline=None]): "\r\n" and "\r"
    become "\n". *)
Fixpoint universal_newlines (s : string) : string :=
  match s with
  | EmptyString => EmptyString
  | String c s' =>
      if Ascii.eqb c "013" then
        match s' with
        | String c' s'' =>
            if Ascii.eqb c' "010" then String "010" (universal_newlines s'')
            else String "010" (universal_newlines s')
        | EmptyString => String "010" EmptyString
        end
      else String c (universal_newlines s')
  end.

(** ** [load_gitignore_spec] and [main] *)

Definition nl : string := String "010" EmptyString.

Definition load_gitignore_spec (env : os_env) (root_path : string)
  : M (option PathSpec) :=
  let gitignore_path := Path.join root_path ".gitignore" in
  match e_gitignore env gitignore_path with
  | GitignoreAbsent => mret None
  | GitignoreInvalid err => log INFO "Loading .gitignore rules.";; raise err
  | GitignoreSpec s => log INFO "Loading .gitignore rules.";; mret (Some s)
  end.

(** [open(path, 'w')]: the file is created or truncated at once. *)
Definition open_write (path : string) (env : os_env) : M unit :=
  if e_writable env path then
    λ w, (Ok (), {| w_heap := w_heap w; w_log := w_log w;
                    w_files := <[path := EmptyString]> (w_files w) |})
  else raise ("[Errno 13] Permission denied: '" +:+ path +:+ "'").

(** [f.write(text)] on the file opened at [path]. *)
Definition write (path text : string) : M unit :=
  λ w, (Ok (), {| w_heap := w_heap w; w_log := w_log w;
                  w_files := <[path := default EmptyString (w_files w !! path) +:+ text]>
                               (w_files w) |}).

(** The text of one file block. *)
Definition file_block (relative_path lang content : string) : string :=
  "## File: `" +:+ relative_path +:+ "`" +:+ nl +:+ nl +:+ "```" +:+ lang +:+ nl
  +:+ content +:+ nl +:+ "```" +:+ nl +:+ nl +:+ "---" +:+ nl +:+ nl.

(** The block [main] writes for [full_path] once its content is read. *)
Definition block_of (cwd root_directory full_path content : string) : string :=
  let relative_path :=
    Str.replace Path.sep "/" (Path.relpath cwd full_path root_directory) in
  let extension := (Path.splitext relative_path).2 in
  let lang := Str.lstrip "." extension in
  file_block relative_path lang content.

(** One iteration of the writing loop.  [relative_path] is the value the
    local variable of that name holds when the iteration starts ([None]:
    not yet bound); the iteration returns the value it leaves.  The
    handler of [UnicodeDecodeError] reads the variable before this
    iteration has assigned it. *)
Definition write_one (env : os_env) (root_directory output_file : string)
           (relative_path : option string) (full_path : string)
  : M (option string) :=
  match e_read env full_path with
  | None =>
      log WARNING ("Could not read or process file " +:+ full_path
                   +:+ ": [Errno 13] Permission denied");;
      mret relative_path
  | Some bytes =>
      match utf8_decode Ignore bytes with
      | None =>
          match relative_path with
          | Some r =>
              log WARNING ("Skipping binary or non-UTF-8 file: " +:+ r);;
              mret relative_path
          | None =>
              raise "cannot access local variable 'relative_path' where it is not associated with a value"
          end
      | Some text =>
          let content := universal_newlines text in
          let relative_path' :=
            Str.replace Path.sep "/"
              (Path.relpath (e_cwd env) full_path root_directory) in
          write output_file (block_of (e_cwd env) root_directory full_path content);;
          mret (Some relative_path')
      end
  end.

(** [for full_path in files_to_process: ...] *)
Fixpoint write_all (env : os_env) (root_directory output_file : string)
         (relative_path : option string) (files : list string) : M unit :=
  match files with
  | [] => mret ()
  | full_path :: rest =>
      r ← write_one env root_directory output_file relative_path full_path;
      write_all env root_directory output_file r rest
  end.

Record args := {
  arg_root_directory : string;
  arg_output : option string;
}.

(** [args.output or f"{project_name}_context.md"] *)
Definition output_file_of (a : args) (project_name : string) : string :=
  match arg_output a with
  | Some o => if Str.nonempty o then o else project_name +:+ "_context.md"
  | None => project_name +:+ "_context.md"
  end.

(** What [discover_files] returns in the run of [main], once the
    configuration and the gitignore rules are loaded. *)
Definition discovered (env : os_env) (root_directory : string) (tree : dir)
           (config : config_dict) (gitignore_spec : option PathSpec) : M (list string) :=
  λ w, (Ok (discover_files (e_cwd env) root_directory
              (resolve (w_heap w) config) gitignore_spec tree), w).

(** The first half of the [try] block of [main]: configuration,
    gitignore rules, discovery. *)
Definition discover_phase (env : os_env) (root_directory : string) (tree : dir)
  : M (list string) :=
  config ← load_config env root_directory;
  let project_name := Path.basename root_directory in
  log INFO ("Starting to process project: '" +:+ project_name +:+ "'");;
  gitignore_spec ← load_gitignore_spec env root_directory;
  discovered env root_directory tree config gitignore_spec.

(** The [with open(output_file, 'w', ...) as f:] block and the closing
    message (whose leading check mark is left out). *)
Definition write_phase (env : os_env) (root_directory output_file : string)
           (files_to_process : list string) : M unit :=
  let project_name := Path.basename root_directory in
  open_write output_file env;;
  write output_file ("# Context for Project: " +:+ project_name +:+ nl +:+ nl);;
  log INFO ("Processing " +:+ pretty (length files_to_process) +:+ " files...");;
  write_all env root_directory output_file None files_to_process;;
  log INFO ("Successfully created context file: " +:+ output_file).

Definition NO_FILES_MESSAGE : string :=
  "No files found to process. Check your ignore/allow configuration.".

Definition main (env : os_env) (a : args) : M unit :=
  let root_directory := Path.abspath (e_cwd env) (arg_root_directory a) in
  match e_dir env root_directory with
  | None =>
      log ERROR ("Error: Root directory not found at '" +:+ root_directory +:+ "'")
  | Some tree =>
      try_except
        (files_to_process ← discover_phase env root_directory tree;
         let output_file := output_file_of a (Path.basename root_directory) in
         if bool_decide (files_to_process = []) then
           log WARNING NO_FILES_MESSAGE
         else
           write_phase env root_directory output_file files_to_process)
        (λ e, log ERROR ("An unexpected error occurred: " +:+ e))
  end.

(** ** A frame condition on the heap *)

(** [keeps h0 m P]: run in a world whose heap extends [h0], the
    statement [m] ends in a world whose heap still extends [h0] (no set
    object of [h0] was written to), and a returned value satisfies [P]. *)
Definition keeps {A} (h0 : list (gset string)) (m : M A) (P : A → Prop) : Prop :=
  ∀ w, h0 `prefix_of` w_heap w →
       h0 `prefix_of` w_heap (m w).2 ∧ ∀ a, (m w).1 = Ok a → P a.

(** The configuration file gives no user configuration: no TOML library,
    no file, a file that does not parse, or a file whose
    [[tool.llmcontext]] section is absent or empty. *)
Definition no_user_config (env : os_env) (root_path : string) : Prop :=
  e_tomllib env = false
  ∨ match e_toml env (Path.join root_path CONFIG_FILENAME) with
    | TomlData data => user_config_of data = ∅
    | _ => True
    end.

(** A project whose [pyproject.toml] has a [[tool.llmcontext]] table
    with no key, next to other tools' tables. *)
Definition empty_section_data : gmap string (gmap string (gmap string (list string))) :=
  {[ "tool" := {[ "llmcontext" := ∅; "black" := {[ "exclude" := ["build"] ]} ]} ]}.

(** A project whose [pyproject.toml] has no [[tool.llmcontext]] at all. *)
Definition absent_section_data : gmap string (gmap string (gmap string (list string))) :=
  {[ "tool" := {[ "black" := {[ "exclude" := ["build"] ]} ]} ]}.

Definition env_with_toml (f : toml_file) : os_env := {|
  e_cwd := "/";
  e_dir := λ _, None;
  e_tomllib := true;
  e_toml := λ _, f;
  e_gitignore := λ _, GitignoreAbsent;
  e_read := λ _, None;
  e_writable := λ _, true;
|}.

(** ** Concrete runs of [main] *)

Definition run_args : args := {| arg_root_directory := "/proj"; arg_output := None |}.

(** Scenario B: the project holds nothing but [secrets.key]. *)
Definition env_nothing_found : os_env := {|
  e_cwd := "/home/u";
  e_dir := λ p, if bool_decide (p = "/proj") then Some (Dir [] ["secrets.key"]) else None;
  e_tomllib := true;
  e_toml := λ _, TomlAbsent;
  e_gitignore := λ _, GitignoreAbsent;
  e_read := λ _, None;
  e_writable := λ _, true;
|}.

(** One byte, 0xFF: not the start of any UTF-8 sequence. *)
Definition blob_bytes : string := String "255" EmptyString.

(** A project with a text file, a file that is not UTF-8 and a file that
    cannot be opened. *)
Definition env_binary : os_env := {|
  e_cwd := "/home/u";
  e_dir := λ p, if bool_decide (p = "/proj")
                then Some (Dir [] ["a.py"; "blob.py"; "locked.py"]) else None;
  e_tomllib := true;
  e_toml := λ _, TomlAbsent;
  e_gitignore := λ _, GitignoreAbsent;
  e_read := λ p, if bool_decide (p = "/proj/a.py") then Some ("x = 1" +:+ nl)
                 else if bool_decide (p = "/proj/blob.py") then Some blob_bytes
                 else None;
  e_writable := λ _, true;
|}.

(** What the writing loop adds to the output for one entry of the file
    list: a block when the file can be read, nothing otherwise. *)
Definition block_for (env : os_env) (root_directory full_path : string) : string :=
  match e_read env full_path with
  | Some bytes =>
      match utf8_decode Ignore bytes with
      | Some text =>
          block_of (e_cwd env) root_directory full_path (universal_newlines text)
      | None => EmptyString
      end
  | None => EmptyString
  end.

(** A component [normpath] keeps: not empty, no separator. *)
Definition kept_comp (x : string) : Prop :=
  Str.nonempty x = true ∧ Str.contains Path.sep x = false.

Definition TOML_MISSING_MESSAGE : string :=
  "TOML library not found. Skipping pyproject.toml. Install with 'pip install tomli' for Python < 3.11".

(** ** What [load_config]'s docstring promises *)

(** "'Ignored' lists from TOML are added to the defaults; 'Allowed' lists
    from TOML replace the defaults": the policy this describes for a
    user section [uc]. *)
Definition merged_policy (uc : gmap string (list string)) : policy := {|
  allowed_dirs := from_option list_to_set DEFAULT_ALLOWED_DIRS_init (uc !! "allowed_dirs");
  allowed_files := from_option list_to_set DEFAULT_ALLOWED_FILES_init (uc !! "allowed_files");
  allowed_extensions :=
    from_option list_to_set DEFAULT_ALLOWED_EXTENSIONS_init (uc !! "allowed_extensions");
  ignored_dirs :=
    DEFAULT_IGNORED_DIRS_init ∪ list_to_set (default [] (uc !! "ignored_dirs"));
  ignored_files :=
    DEFAULT_IGNORED_FILES_init ∪ list_to_set (default [] (uc !! "ignored_files"));
  ignored_extensions :=
    DEFAULT_IGNORED_EXTENSIONS_init
    ∪ list_to_set (default [] (uc !! "ignored_extensions"));
|}.

(** A user section that allows [.env] files, restricts to [src/] and
    ignores a directory and an extension of its own. *)
Definition sample_user_config : gmap string (list string) :=
  {[ "allowed_dirs" := ["src/"]; "allowed_extensions" := [".env"];
     "ignored_dirs" := ["fixtures"; ".git"]; "ignored_extensions" := [".snap"] ]}.

Definition sample_pyproject : gmap string (gmap string (gmap string (list string))) :=
  {[ "tool" := {[ "llmcontext" := sample_user_config ]} ]}.

(** ** Comparing policies *)

(** [c2] ignores at least what [c1] ignores and allows the same. *)
Definition ignores_more (c1 c2 : policy) : Prop :=
  allowed_dirs c1 = allowed_dirs c2
  ∧ allowed_files c1 = allowed_files c2
  ∧ allowed_extensions c1 = allowed_extensions c2
  ∧ ignored_dirs c1 ⊆ ignored_dirs c2
  ∧ ignored_files c1 ⊆ ignored_files c2
  ∧ ignored_extensions c1 ⊆ ignored_extensions c2.

(** The policy that filters nothing. *)
Definition empty_policy : policy := {|
  allowed_dirs := ∅; allowed_files := ∅; allowed_extensions := ∅;
  ignored_dirs := ∅; ignored_files := ∅; ignored_extensions := ∅;
|}.

(** A project with a test directory and a log file, and a policy that
    ignores both on top of the defaults. *)
Definition layered_tree : dir :=
  Dir [("src", Some (Dir [("gen", Some (Dir [] ["out.py"]))] ["main.py"; "debug.trace"]));
       ("tests", Some (Dir [] ["test_main.py"]))]
      ["setup.py"; "notes.txt"].

Definition layered_policy : policy := {|
  allowed_dirs := ∅; allowed_files := ∅; allowed_extensions := ∅;
  ignored_dirs := {[ "tests"; "src/gen" ]} ∪ DEFAULT_IGNORED_DIRS_init;
  ignored_files := {[ "notes.txt" ]} ∪ DEFAULT_IGNORED_FILES_init;
  ignored_extensions := {[ ".trace" ]} ∪ DEFAULT_IGNORED_EXTENSIONS_init;
|}.

(** A matcher for the single rule [*.trace]. *)
Definition spec_trace : PathSpec :=
  {| spec_len := 1;
     match_file := λ path, bool_decide ((Path.splitext path).2 = ".trace") |}.

(** ** Runs that fail *)

(** [m] never raises. *)
Definition no_raise {A} (m : M A) : Prop := ∀ w, ∃ a w', m w = (Ok a, w').

(** [m] writes to no file but [out]. *)
Definition writes_only {A} (out : string) (m : M A) : Prop :=
  ∀ w path, path ≠ out → w_files (m w).2 !! path = w_files w !! path.

(** A project whose [.gitignore] cannot be compiled. *)
Definition env_bad_gitignore : os_env := {|
  e_cwd := "/home/u";
  e_dir := λ p, if bool_decide (p = "/proj") then Some (Dir [] ["a.py"]) else None;
  e_tomllib := true;
  e_toml := λ _, TomlAbsent;
  e_gitignore := λ _, GitignoreInvalid "'utf-8' codec can't decode byte 0xff in position 0: invalid start byte";
  e_read := λ _, Some "x = 1";
  e_writable := λ _, true;
|}.

(** A project in a place where the output cannot be created. *)
Definition env_read_only : os_env := {|
  e_cwd := "/home/u";
  e_dir := λ p, if bool_decide (p = "/proj") then Some (Dir [] ["a.py"]) else None;
  e_tomllib := true;
  e_toml := λ _, TomlAbsent;
  e_gitignore := λ _, GitignoreAbsent;
  e_read := λ _, Some "x = 1";
  e_writable := λ _, false;
|}.

(** A project with a user section and a [.gitignore] holding [*.trace]. *)
Definition env_configured : os_env := {|
  e_cwd := "/home/u";
  e_dir := λ p, if bool_decide (p = "/proj") then Some layered_tree else None;
  e_tomllib := true;
  e_toml := λ _, TomlData sample_pyproject;
  e_gitignore := λ _, GitignoreSpec spec_trace;
  e_read := λ _, Some "x = 1";
  e_writable := λ _, true;
|}.

(** No directory lists a name twice, among its files or among its
    sub-directories. *)
Fixpoint unique_names (t : dir) : bool :=
  match t with
  | Dir entries files =>
      bool_decide (NoDup files) && bool_decide (NoDup (map fst entries))
      && forallb (λ e, match e.2 with Some sub => unique_names sub | None => true end)
                 entries
  end.

(** The policy a configuration file stands for: the defaults, unless a
    TOML library is there and the file parses and has a non-empty
    [[tool.llmcontext]] section. *)
Definition policy_of_env (env : os_env) (root_path : string) : policy :=
  if e_tomllib env then
    match e_toml env (Path.join root_path CONFIG_FILENAME) with
    | TomlData data =>
        if bool_decide (user_config_of data = ∅) then default_policy
        else merged_policy (user_config_of data)
    | _ => default_policy
    end
  else default_policy.

(** Python before 3.11 without [tomli]: a [pyproject.toml] with a user
    section is there but nothing can read it. *)
Definition env_without_tomllib : os_env := {|
  e_cwd := "/";
  e_dir := λ _, None;
  e_tomllib := false;
  e_toml := λ _, TomlData sample_pyproject;
  e_gitignore := λ _, GitignoreAbsent;
  e_read := λ _, None;
  e_writable := λ _, true;
|}.

(* ================================================================== *)
(** * Properties *)

(** ** Sanity checks of the library models *)

Example splitext_ex1 : Path.splitext "a/b.tar.gz" = ("a/b.tar", ".gz").
Proof. reflexivity. Qed.
Example splitext_ex2 : Path.splitext "..x" = ("..x", "").
Proof. reflexivity. Qed.
Example splitext_ex3 : Path.splitext "..x.y" = ("..x", ".y").
Proof. reflexivity. Qed.
Example relpath_ex1 : Path.relpath "/home" "/proj/src/main.go" "/proj" = "src/main.go".
Proof. vm_compute. reflexivity. Qed.
Example relpath_ex2 : Path.relpath "/home/u" "p/./a//b/../c" "p" = "a/c".
Proof. vm_compute. reflexivity. Qed.
Example relpath_ex3 : Path.relpath "/home/u" "/x/y" "/x/z/w" = "../../y".
Proof. vm_compute. reflexivity. Qed.
Example scenario_A_ok :
  discover_files "/" "/proj" default_policy None scenario_A = ["/proj/a.py"].
Proof. vm_compute. reflexivity. Qed.

(** ** The directory loop *)

Section DiscoverFacts.
Variable cwd : string.
Variable root_path : string.
Variable config : policy.
Variable spec : option PathSpec.

Local Abbreviation rel := (relative_path cwd root_path).
Local Abbreviation pruned := (dir_pruned cwd root_path config spec).

Lemma dirs_to_remove_config_spec dirpath dirnames d :
  d ∈ dirs_to_remove_config cwd root_path config dirpath dirnames ↔
  d ∈ dirnames ∧
  (d ∈ ignored_dirs config ∨ rel dirpath d ∈ ignored_dirs config).
Proof.
  unfold dirs_to_remove_config.
  assert (G : ∀ l (acc : gset string),
             d ∈ foldl (λ acc d,
                 if bool_decide (d ∈ ignored_dirs config)
                    || bool_decide (rel dirpath d ∈ ignored_dirs config)
                 then {[ d ]} ∪ acc else acc) acc l ↔
             d ∈ acc ∨ (d ∈ l ∧ (d ∈ ignored_dirs config
                                 ∨ rel dirpath d ∈ ignored_dirs config))).
  { induction l as [|x l IH]; intros acc; simpl.
    - set_solver.
    - rewrite IH.
      destruct (bool_decide (x ∈ ignored_dirs config)) eqn:E1;
        destruct (bool_decide (rel dirpath x ∈ ignored_dirs config)) eqn:E2;
        simpl;
        try apply bool_decide_eq_true in E1;
        try apply bool_decide_eq_true in E2;
        try apply bool_decide_eq_false in E1;
        try apply bool_decide_eq_false in E2;
        set_solver. }
  rewrite G. set_solver.
Qed.

Lemma dirs_to_remove_spec_spec dirpath dirnames (acc : gset string) d :
  d ∈ dirs_to_remove_spec cwd root_path spec dirpath dirnames acc ↔
  d ∈ acc ∨ (d ∈ dirnames ∧ spec_matches spec (rel dirpath d +:+ "/") = true).
Proof.
  unfold dirs_to_remove_spec, spec_matches, spec_truthy.
  destruct spec as [s|]; [|set_solver].
  destruct (Nat.eqb (spec_len s) 0); simpl; [set_solver|].
  revert acc. induction dirnames as [|x l IH]; intros acc; simpl.
  - set_solver.
  - rewrite IH. case_bool_decide as Hx; [set_solver|].
    destruct (match_file s (rel dirpath x +:+ "/")) eqn:E; [set_solver|].
    split; [set_solver|]. intros [?|[[->|?]%elem_of_cons ?]]; [auto|congruence|auto].
Qed.

Lemma dirs_to_remove_spec' dirpath dirnames d :
  d ∈ dirs_to_remove cwd root_path config spec dirpath dirnames ↔
  d ∈ dirnames ∧ pruned dirpath d = true.
Proof.
  unfold dirs_to_remove. rewrite dirs_to_remove_spec_spec, dirs_to_remove_config_spec.
  unfold dir_pruned. rewrite !orb_true_iff, !bool_decide_eq_true. tauto.
Qed.

(** The names left in [dirnames] are exactly those not pruned. *)
Lemma elem_of_prune_dirnames dirpath dirnames d :
  d ∈ prune_dirnames cwd root_path config spec dirpath dirnames ↔
  d ∈ dirnames ∧ pruned dirpath d = false.
Proof.
  unfold prune_dirnames. rewrite list_elem_of_filter, dirs_to_remove_spec'.
  destruct (pruned dirpath d); naive_solver.
Qed.

Lemma elem_of_files_appended dirpath filenames full :
  full ∈ files_appended cwd root_path config spec dirpath filenames ↔
  ∃ f, f ∈ filenames ∧
       file_included cwd root_path config spec dirpath f = true ∧
       full = Path.join dirpath f.
Proof.
  unfold files_appended. rewrite list_elem_of_In, in_map_iff.
  split.
  - intros (f & <- & Hf%list_elem_of_In%list_elem_of_filter).
    destruct Hf as [Hi Hf]. exists f. split_and!; auto.
    by apply Is_true_true.
  - intros (f & Hf & Hi & ->). exists f. split; [done|].
    apply list_elem_of_In, list_elem_of_filter. split; [|done].
    by apply Is_true_true.
Qed.

(** What [os.walk] feeds to the loop, read off the tree: a path is in
    the result exactly when it is [join dirpath f] for a file [f] listed
    in a directory all of whose ancestors survived pruning, and the
    file loop appended it. *)
Lemma elem_of_walk top t full :
  full ∈ concat (os_walk (walk_body cwd root_path config spec) top t) ↔
  ∃ p f, file_at t p f ∧
         path_kept cwd root_path config spec top p = true ∧
         file_included cwd root_path config spec (Path.join_all top p) f = true ∧
         full = Path.join (Path.join_all top p) f.
Proof.
  revert top. induction t as [entries files IH] using dir_ind. intros top.
  rewrite List.Forall_forall in IH. setoid_rewrite <- list_elem_of_In in IH.
  cbn [os_walk concat]. rewrite elem_of_app.
  cbn [walk_body fst snd].
  rewrite elem_of_files_appended.
  rewrite list_elem_of_In, in_concat.
  split.
  - intros [(f & Hf & Hi & ->)|(l & Hl & Hfull)].
    + exists [], f. split_and!; auto. by constructor.
    + apply in_flat_map in Hl as ([d [sub|]] & He & Hl); simpl in Hl;
        (case_bool_decide as Hd; [|by destruct Hl]); [|by destruct Hl].
      apply elem_of_prune_dirnames in Hd as [_ Hd].
      apply list_elem_of_In in He.
      specialize (IH _ He (Path.join top d)).
      simpl in IH.
      destruct (proj1 IH) as (p & f & Hat & Hk & Hi & ->).
      { rewrite list_elem_of_In, in_concat. eauto. }
      exists (d :: p), f. split_and!; auto.
      * econstructor; eauto.
      * simpl. by rewrite Hd.
  - intros (p & f & Hat & Hk & Hi & ->).
    inversion Hat as [? ? ? Hf|? ? d sub p' ? He Hat']; subst.
    + left. eauto.
    + right. simpl in Hk. apply andb_true_iff in Hk as [Hd Hk].
      apply negb_true_iff in Hd.
      specialize (IH _ He (Path.join top d)).
      simpl in IH.
      assert (Hin : Path.join (Path.join_all (Path.join top d) p') f
                    ∈ concat (os_walk (walk_body cwd root_path config spec)
                                      (Path.join top d) sub)).
      { apply IH. eauto 10. }
      apply list_elem_of_In, in_concat in Hin as (l & Hl & Hin).
      exists l. split; [|done].
      apply in_flat_map. exists (d, Some sub). split; [by apply list_elem_of_In|].
      simpl. rewrite bool_decide_eq_true_2; [done|].
      apply elem_of_prune_dirnames. split; [|done].
      apply list_elem_of_In, in_map_iff. exists (d, Some sub).
      split; [done|by apply list_elem_of_In].
Qed.

Corollary elem_of_discover_files t full :
  full ∈ discover_files cwd root_path config spec t ↔
  ∃ p f, file_at t p f ∧
         path_kept cwd root_path config spec root_path p = true ∧
         file_included cwd root_path config spec (Path.join_all root_path p) f = true ∧
         full = Path.join (Path.join_all root_path p) f.
Proof. apply elem_of_walk. Qed.

End DiscoverFacts.

(** ** Full paths are injective on well-formed names *)

Section PathStrings.

Lemma app_cons a s1 s2 : String a s1 +:+ s2 = String a (s1 +:+ s2).
Proof. reflexivity. Qed.

Lemma app_empty_l s : "" +:+ s = s.
Proof. reflexivity. Qed.

Lemma app_empty_r s : s +:+ "" = s.
Proof. induction s; [done|]. rewrite app_cons. by f_equal. Qed.

Lemma app_assoc' s1 s2 s3 : (s1 +:+ s2) +:+ s3 = s1 +:+ s2 +:+ s3.
Proof. induction s1; [done|]. rewrite !app_cons. by f_equal. Qed.

Lemma replace_same c s : Str.replace c c s = s.
Proof.
  induction s as [|x s IH]; [done|]. simpl. rewrite IH.
  destruct (Ascii.eqb x c) eqn:E; [|done]. by apply Ascii.eqb_eq in E as ->.
Qed.

Lemma contains_app c s1 s2 :
  Str.contains c (s1 +:+ s2) = Str.contains c s1 || Str.contains c s2.
Proof.
  induction s1 as [|x s1 IH]; [done|]. rewrite app_cons. simpl.
  rewrite IH. by rewrite orb_assoc.
Qed.

Lemma last_is_app c s1 s2 :
  Str.nonempty s2 = true → Str.last_is c (s1 +:+ s2) = Str.last_is c s2.
Proof.
  intros H. induction s1 as [|x s1 IH]; [done|].
  rewrite app_cons. simpl. rewrite IH.
  destruct (s1 +:+ s2) eqn:E; [|done].
  destruct s1, s2; simplify_eq/=.
Qed.

Lemma last_is_contains c s : Str.last_is c s = true → Str.contains c s = true.
Proof.
  induction s as [|x s IH]; [done|]. simpl.
  destruct s; [by rewrite orb_false_r|]. intros H. rewrite (IH H).
  by rewrite orb_true_r.
Qed.

Lemma nonempty_app_r s1 s2 : Str.nonempty s2 = true → Str.nonempty (s1 +:+ s2) = true.
Proof. destruct s1; [done|]. by rewrite app_cons. Qed.

Lemma valid_name_nonempty s : valid_name s = true → Str.nonempty s = true.
Proof. unfold valid_name. rewrite !andb_true_iff. tauto. Qed.

Lemma valid_name_no_sep s : valid_name s = true → Str.contains Path.sep s = false.
Proof. unfold valid_name. rewrite !andb_true_iff, negb_true_iff. tauto. Qed.

Lemma valid_name_not_dots s :
  valid_name s = true → s ≠ "" ∧ s ≠ Path.curdir ∧ s ≠ Path.pardir.
Proof.
  unfold valid_name. rewrite !andb_true_iff, !negb_true_iff, !bool_decide_eq_false.
  intros [[[Hne _] ?] ?]. split_and!; auto. by intros ->.
Qed.

Lemma startswith_sep_contains s :
  Str.startswith Path.sep_s s = true → Str.contains Path.sep s = true.
Proof.
  destruct s as [|x s]; [done|]. unfold Str.startswith, Path.sep_s.
  cbn [String.prefix]. destruct (ascii_dec "/" x) as [<-|]; [done|done].
Qed.

(** [join] on a listing name: the base of [top], then the name. *)
Lemma join_valid top d :
  valid_name d = true → Path.join top d = join_base top +:+ d.
Proof.
  intros Hd. unfold Path.join, join_base.
  destruct (Str.startswith Path.sep_s d) eqn:E.
  { apply startswith_sep_contains in E.
    by rewrite (valid_name_no_sep _ Hd) in E. }
  destruct (negb (Str.nonempty top) || Str.last_is Path.sep top); [done|].
  by rewrite app_assoc'.
Qed.

Lemma join_base_join top d :
  valid_name d = true →
  join_base (Path.join top d) = join_base top +:+ d +:+ Path.sep_s.
Proof.
  intros Hd. rewrite (join_valid _ _ Hd). unfold join_base at 1.
  rewrite (nonempty_app_r _ _ (valid_name_nonempty _ Hd)).
  rewrite (last_is_app _ _ _ (valid_name_nonempty _ Hd)). simpl.
  destruct (Str.last_is Path.sep d) eqn:E.
  { apply last_is_contains in E. by rewrite (valid_name_no_sep _ Hd) in E. }
  by rewrite app_assoc'.
Qed.

(** The path of a file as the loop builds it. *)
Lemma full_path_string top p f :
  Forall (λ d, valid_name d = true) p → valid_name f = true →
  Path.join (Path.join_all top p) f = join_base top +:+ rel_string p f.
Proof.
  intros Hp Hf. revert top. induction Hp as [|d p Hd Hp IH]; intros top.
  - simpl. by apply join_valid.
  - unfold Path.join_all in *. simpl. rewrite IH.
    rewrite (join_base_join _ _ Hd). by rewrite !app_assoc'.
Qed.

(** [os.path.relpath] is never handed an empty path. *)
Lemma join_nonempty top f :
  Str.nonempty f = true → Str.nonempty (Path.join top f) = true.
Proof.
  intros Hf. unfold Path.join.
  destruct (Str.startswith Path.sep_s f); [done|].
  destruct (negb (Str.nonempty top) || Str.last_is Path.sep top);
    rewrite ?nonempty_app_r; auto using nonempty_app_r.
Qed.

Lemma sep_split d d' r r' :
  Str.contains Path.sep d = false → Str.contains Path.sep d' = false →
  d +:+ String Path.sep r = d' +:+ String Path.sep r' → d = d' ∧ r = r'.
Proof.
  revert d'. induction d as [|x d IH]; intros [|x' d'] Hd Hd' E;
    rewrite ?app_cons, ?app_empty_l in E; simplify_eq/=.
  all: try done.
  apply orb_false_iff in Hd as [_ Hd]. apply orb_false_iff in Hd' as [_ Hd'].
  destruct (IH d' Hd Hd') as [-> ->]; done.
Qed.

Lemma rel_string_inj p f p' f' :
  Forall (λ d, valid_name d = true) p → valid_name f = true →
  Forall (λ d, valid_name d = true) p' → valid_name f' = true →
  rel_string p f = rel_string p' f' → p = p' ∧ f = f'.
Proof.
  intros Hp Hf Hp'. revert p Hp. induction Hp' as [|d' p' Hd' Hp' IH];
    intros p Hp Hf' E; destruct Hp as [|d p Hd Hp]; simpl in E.
  - done.
  - apply valid_name_no_sep in Hf'. rewrite <- E, contains_app in Hf'.
    simpl in Hf'. by rewrite orb_true_r in Hf'.
  - apply valid_name_no_sep in Hf. rewrite E, contains_app in Hf.
    simpl in Hf. by rewrite orb_true_r in Hf.
  - apply sep_split in E as [-> E]; auto using valid_name_no_sep.
    destruct (IH p Hp Hf' E) as [-> ->]. done.
Qed.

Lemma full_path_inj top p f p' f' :
  Forall (λ d, valid_name d = true) p → valid_name f = true →
  Forall (λ d, valid_name d = true) p' → valid_name f' = true →
  Path.join (Path.join_all top p) f = Path.join (Path.join_all top p') f' →
  p = p' ∧ f = f'.
Proof.
  intros Hp Hf Hp' Hf'. rewrite !full_path_string by done.
  intros E%(inj _). by apply rel_string_inj.
Qed.

Lemma file_at_valid t p f :
  wf_dir t = true → file_at t p f →
  Forall (λ d, valid_name d = true) p ∧ valid_name f = true.
Proof.
  intros Hwf Hat. induction Hat as [entries files f Hf|entries files d sub p f He Hat IH];
    simpl in Hwf; apply andb_true_iff in Hwf as [Hfs Hes].
  - split; [constructor|].
    rewrite forallb_forall in Hfs. by apply Hfs, list_elem_of_In.
  - rewrite forallb_forall in Hes.
    apply list_elem_of_In, Hes in He. simpl in He.
    apply andb_true_iff in He as [Hd Hsub].
    destruct (IH Hsub) as [Hp Hf]. split; [by constructor|done].
Qed.

End PathStrings.

(** ** Which directories the traversal enters *)

Section VisitedDirs.
Variable cwd : string.
Variable root_path : string.
Variable config : policy.
Variable spec : option PathSpec.

Lemma elem_of_visited_from top t dp :
  dp ∈ os_walk (λ dirpath dirnames _,
                  (prune_dirnames cwd root_path config spec dirpath dirnames, dirpath))
               top t ↔
  ∃ p, dir_at t p ∧ path_kept cwd root_path config spec top p = true ∧
       dp = Path.join_all top p.
Proof.
  revert top. induction t as [entries files IH] using dir_ind. intros top.
  rewrite List.Forall_forall in IH. setoid_rewrite <- list_elem_of_In in IH.
  cbn [os_walk fst snd]. rewrite elem_of_cons. split.
  - intros [->|Hin].
    + exists []. split_and!; auto. constructor.
    + apply list_elem_of_In, in_flat_map in Hin as ([d [sub|]] & He & Hin);
        simpl in Hin; (case_bool_decide as Hd; [|by destruct Hin]); [|by destruct Hin].
      apply elem_of_prune_dirnames in Hd as [_ Hd].
      apply list_elem_of_In in He, Hin.
      apply (IH _ He) in Hin as (p & Hat & Hk & ->).
      exists (d :: p). split_and!; auto.
      * econstructor; eauto.
      * simpl. by rewrite Hd.
  - intros (p & Hat & Hk & ->).
    inversion Hat as [|? ? d sub p' He Hat']; subst; [by left|right].
    simpl in Hk. apply andb_true_iff in Hk as [Hd%negb_true_iff Hk].
    apply list_elem_of_In, in_flat_map. exists (d, Some sub).
    split; [by apply list_elem_of_In|]. simpl.
    rewrite bool_decide_eq_true_2.
    + apply list_elem_of_In, (IH _ He). eauto.
    + apply elem_of_prune_dirnames. split; [|done].
      apply list_elem_of_In, in_map_iff. exists (d, Some sub).
      split; [done|by apply list_elem_of_In].
Qed.

(** [path_kept] is the traversal: a directory is entered exactly when
    no directory on the way to it was pruned. *)
Lemma elem_of_visited_dirs t dp :
  dp ∈ visited_dirs cwd root_path config spec t ↔
  ∃ p, dir_at t p ∧ path_kept cwd root_path config spec root_path p = true ∧
       dp = Path.join_all root_path p.
Proof. apply elem_of_visited_from. Qed.

Lemma path_kept_app top p q :
  path_kept cwd root_path config spec top (p ++ q) =
  path_kept cwd root_path config spec top p
  && path_kept cwd root_path config spec (Path.join_all top p) q.
Proof.
  revert top. induction p as [|d p IH]; intros top; [done|].
  simpl. rewrite IH. by rewrite andb_assoc.
Qed.

End VisitedDirs.

(** ** Force-allow, pruning and the allowed-directory restriction *)

(** C1. A file listed in a directory the traversal enters, whose
    relative path is in [allowed_files] or whose extension is non-empty
    and in [allowed_extensions], is in the result of [discover_files],
    whatever the ignore sets, the allowed directories and the gitignore
    matcher say about it. *)
Theorem force_allow_precedence cwd root_path config spec t p f :
  file_at t p f →
  path_kept cwd root_path config spec root_path p = true →
  (relative_path cwd root_path (Path.join_all root_path p) f ∈ allowed_files config
   ∨ ((Path.splitext f).2 ≠ "" ∧ (Path.splitext f).2 ∈ allowed_extensions config)) →
  Path.join (Path.join_all root_path p) f
    ∈ discover_files cwd root_path config spec t.
Proof.
  intros Hat Hk Hallow. apply elem_of_discover_files.
  exists p, f. split_and!; auto.
  unfold file_included.
  assert (is_force_allowed config
            (relative_path cwd root_path (Path.join_all root_path p) f)
            (Path.splitext f).2 = true) as ->; [|done].
  unfold is_force_allowed. apply orb_true_iff.
  destruct Hallow as [H|[Hne H]].
  - left. by apply bool_decide_eq_true.
  - right. apply andb_true_iff. split; [|by apply bool_decide_eq_true].
    by destruct ((Path.splitext f).2).
Qed.

(** [secrets.env] is ignored by name and by extension, matched by the
    gitignore matcher and outside the allowed directory, and still found. *)
Lemma force_allow_precedence_witness :
  bool_decide ("secrets.env" ∈ ignored_files scenario_D_policy) = true ∧
  bool_decide (".env" ∈ ignored_extensions scenario_D_policy) = true ∧
  spec_matches (Some spec_everything) "secrets.env" = true ∧
  is_allowed scenario_D_policy "secrets.env" = false ∧
  "/proj/secrets.env"
    ∈ discover_files "/" "/proj" scenario_D_policy (Some spec_everything) scenario_D.
Proof.
  split_and!; try (vm_compute; reflexivity).
  apply (force_allow_precedence "/" "/proj" scenario_D_policy
           (Some spec_everything) scenario_D [] "secrets.env").
  - constructor. apply list_elem_of_here.
  - reflexivity.
  - right. split; [discriminate|].
    apply (bool_decide_unpack _). vm_compute. exact I.
Defined.

(** C2. A directory below the root whose name or relative path is in
    [ignored_dirs], or whose relative path followed by "/" the active
    gitignore matcher matches, is cut off: the traversal does not enter
    it or anything below it, and no file below it, at any depth, is in
    the result, force-allowed or not. *)
Theorem pruned_directory_hard_cut cwd root_path config spec t p d q f :
  wf_dir t = true →
  file_at t (p ++ d :: q) f →
  (d ∈ ignored_dirs config
   ∨ relative_path cwd root_path (Path.join_all root_path p) d ∈ ignored_dirs config
   ∨ spec_matches spec
       (relative_path cwd root_path (Path.join_all root_path p) d +:+ "/") = true) →
  path_kept cwd root_path config spec root_path (p ++ d :: q) = false ∧
  Path.join (Path.join_all root_path (p ++ d :: q)) f
    ∉ discover_files cwd root_path config spec t.
Proof.
  intros Hwf Hat Hpr.
  assert (Hd : dir_pruned cwd root_path config spec (Path.join_all root_path p) d = true).
  { unfold dir_pruned. rewrite !orb_true_iff, !bool_decide_eq_true. tauto. }
  assert (Hk : path_kept cwd root_path config spec root_path (p ++ d :: q) = false).
  { rewrite path_kept_app. simpl. rewrite Hd. simpl. by rewrite andb_false_r. }
  split; [done|].
  intros (p' & f' & Hat' & Hk' & _ & E)%elem_of_discover_files.
  destruct (file_at_valid _ _ _ Hwf Hat) as [Hp Hf].
  destruct (file_at_valid _ _ _ Hwf Hat') as [Hp' Hf'].
  apply full_path_inj in E as [<- <-]; auto. congruence.
Qed.

(** [node_modules/pkg/index.js] is force-allowed twice over, by path and
    by extension, and is not found below the ignored [node_modules]. *)
Lemma pruned_directory_hard_cut_witness :
  is_force_allowed pruned_policy "node_modules/pkg/index.js" ".js" = true ∧
  "/proj/node_modules/pkg/index.js"
    ∉ discover_files "/" "/proj" pruned_policy None pruned_tree.
Proof.
  split; [vm_compute; reflexivity|].
  apply (pruned_directory_hard_cut "/" "/proj" pruned_policy None pruned_tree
           [] "node_modules" ["pkg"] "index.js").
  - reflexivity.
  - eapply file_below; [apply list_elem_of_here|].
    eapply file_below; [apply list_elem_of_here|].
    constructor. apply list_elem_of_here.
  - left. apply (bool_decide_unpack _). vm_compute. exact I.
Defined.

Example pruned_tree_result :
  discover_files "/" "/proj" pruned_policy None pruned_tree
  = ["/proj/a.py"; "/proj/lib/util.js"].
Proof. vm_compute. reflexivity. Qed.

Lemma is_allowed_false config rel :
  (∀ a, a ∈ allowed_dirs config → Str.startswith a rel = false) →
  is_allowed config rel = false.
Proof.
  intros H. unfold is_allowed, allowed_paths.
  apply not_true_iff_false. intros (x & Hx & Hs)%existsb_exists.
  apply in_map_iff in Hx as (a & <- & Ha%list_elem_of_In%elem_of_elements).
  rewrite replace_same in Hs. rewrite (H _ Ha) in Hs. done.
Qed.

Lemma is_allowed_true config rel a :
  a ∈ allowed_dirs config → Str.startswith a rel = true →
  is_allowed config rel = true.
Proof.
  intros Ha Hs. unfold is_allowed, allowed_paths.
  apply existsb_exists. exists a. split; [|done].
  apply in_map_iff. exists a. split; [apply replace_same|].
  by apply list_elem_of_In, elem_of_elements.
Qed.

Lemma allowed_paths_nil config : allowed_paths config = [] ↔ allowed_dirs config = ∅.
Proof.
  unfold allowed_paths. split.
  - intros H%map_eq_nil. by apply elements_empty_inv, leibniz_equiv in H.
  - intros ->. by rewrite elements_empty.
Qed.

(** C3. With a non-empty [allowed_dirs], a file that is not
    force-allowed and whose relative path starts with none of the entries
    is not in the result, whatever its extension; in Scenario E only
    [src/main.go] is found. *)
Theorem allowed_dirs_restriction :
  (∀ cwd root_path config spec t p f,
      wf_dir t = true →
      file_at t p f →
      allowed_dirs config ≠ ∅ →
      is_force_allowed config
        (relative_path cwd root_path (Path.join_all root_path p) f)
        (Path.splitext f).2 = false →
      (∀ a, a ∈ allowed_dirs config →
            Str.startswith a
              (relative_path cwd root_path (Path.join_all root_path p) f) = false) →
      Path.join (Path.join_all root_path p) f
        ∉ discover_files cwd root_path config spec t)
  ∧ discover_files "/" "/proj" scenario_E_policy None scenario_E
    = ["/proj/src/main.go"].
Proof.
  split; [|vm_compute; reflexivity].
  intros cwd root_path config spec t p f Hwf Hat Hne Hfa Hpre.
  intros (p' & f' & Hat' & _ & Hinc & E)%elem_of_discover_files.
  destruct (file_at_valid _ _ _ Hwf Hat) as [Hp Hf].
  destruct (file_at_valid _ _ _ Hwf Hat') as [Hp' Hf'].
  apply full_path_inj in E as [<- <-]; auto.
  unfold file_included in Hinc. rewrite Hfa in Hinc.
  rewrite (is_allowed_false _ _ Hpre) in Hinc.
  rewrite bool_decide_eq_false_2 in Hinc; [done|].
  by rewrite allowed_paths_nil.
Qed.

(** [tools/build.go] has an extension nothing ignores and is left out
    because it is outside [src/]. *)
Lemma allowed_dirs_restriction_witness :
  "/proj/tools/build.go"
    ∉ discover_files "/" "/proj" scenario_E_policy None scenario_E.
Proof.
  apply (proj1 allowed_dirs_restriction "/" "/proj" scenario_E_policy None
           scenario_E ["tools"] "build.go").
  - reflexivity.
  - eapply file_below; [apply list_elem_of_further, list_elem_of_here|].
    constructor. apply list_elem_of_here.
  - intros H. assert (Hin : "src/" ∈ allowed_dirs scenario_E_policy)
      by (apply (bool_decide_unpack _); vm_compute; exact I).
    rewrite H in Hin. by apply not_elem_of_empty in Hin.
  - vm_compute. reflexivity.
  - intros a Ha. simpl in Ha. apply elem_of_singleton in Ha as ->.
    vm_compute. reflexivity.
Defined.

(** C10. The allowed-directory restriction is a plain string-prefix test
    on the relative path: a file whose relative path starts with the
    characters of an entry is treated as if there were no restriction,
    also when the entry ends in the middle of a path component.  It plays
    no part in pruning: the directories entered are the same whatever
    [allowed_dirs] is.  With [allowed_dirs = ["src"]], [srcfile.py] and
    [src2/main.go] are found, and [other] and [other/src] are entered
    although nothing in them can be kept. *)
Theorem allowed_dirs_is_string_prefix :
  (∀ cwd root_path config spec dirpath f a,
      a ∈ allowed_dirs config →
      Str.startswith a (relative_path cwd root_path dirpath f) = true →
      is_allowed config (relative_path cwd root_path dirpath f) = true ∧
      file_included cwd root_path config spec dirpath f
      = file_included cwd root_path (set_allowed_dirs ∅ config) spec dirpath f)
  ∧ (∀ cwd root_path config spec A dirpath dirnames t,
        prune_dirnames cwd root_path (set_allowed_dirs A config) spec dirpath dirnames
        = prune_dirnames cwd root_path config spec dirpath dirnames ∧
        visited_dirs cwd root_path (set_allowed_dirs A config) spec t
        = visited_dirs cwd root_path config spec t)
  ∧ discover_files "/" "/proj" prefix_policy None prefix_tree
    = ["/proj/srcfile.py"; "/proj/src/a.py"; "/proj/src2/main.go"]
  ∧ visited_dirs "/" "/proj" prefix_policy None prefix_tree
    = ["/proj"; "/proj/src"; "/proj/src2"; "/proj/other"; "/proj/other/src"].
Proof.
  split_and!; [| |vm_compute; reflexivity..].
  - intros cwd root_path config spec dirpath f a Ha Hs.
    pose proof (is_allowed_true _ _ _ Ha Hs) as Hal. split; [done|].
    unfold file_included. rewrite Hal, andb_false_r.
    replace (allowed_paths (set_allowed_dirs ∅ config)) with (@nil string)
      by (symmetry; by apply allowed_paths_nil).
    done.
  - intros. split; reflexivity.
Qed.

Lemma allowed_dirs_is_string_prefix_witness :
  is_allowed prefix_policy (relative_path "/" "/proj" "/proj/src2" "main.go") = true ∧
  file_included "/" "/proj" prefix_policy None "/proj/src2" "main.go"
  = file_included "/" "/proj" (set_allowed_dirs ∅ prefix_policy) None "/proj/src2" "main.go".
Proof.
  apply (proj1 allowed_dirs_is_string_prefix "/" "/proj" prefix_policy None
           "/proj/src2" "main.go" "src").
  - apply (bool_decide_unpack _). vm_compute. exact I.
  - vm_compute. reflexivity.
Defined.

(** ** Exact membership and dotfiles *)

Lemma bool_decide_elem_of_remove (x e : string) (S : gset string) :
  x ≠ e → bool_decide (x ∈ S ∖ {[ e ]}) = bool_decide (x ∈ S).
Proof. intros Hne. apply bool_decide_ext. set_solver. Qed.

Lemma rfind_from_absent c s i acc :
  Str.contains c s = false → Str.rfind_from c s i acc = acc.
Proof.
  revert i acc. induction s as [|x s IH]; intros i acc H; [done|].
  simpl in *. apply orb_false_iff in H as [-> H]. by apply IH.
Qed.

Lemma rfind_from_bounds c s i acc :
  Str.rfind_from c s i acc = acc ∨ i ≤ Str.rfind_from c s i acc.
Proof.
  revert i acc. induction s as [|x s IH]; intros i acc; [by left|].
  simpl. destruct (Ascii.eqb x c).
  - right. destruct (IH (i + 1) i) as [->|]; lia.
  - destruct (IH (i + 1) acc) as [->|]; [by left|right; lia].
Qed.

(** A name made of one leading dot and no other dot has no extension. *)
Lemma splitext_dotfile s :
  Str.contains "." s = false →
  Path.splitext (String "." s) = (String "." s, "").
Proof.
  intros Hs. unfold Path.splitext.
  assert (Hdot : Str.rfind Path.extsep (String "." s) = 0).
  { unfold Str.rfind. simpl. by apply rfind_from_absent. }
  rewrite Hdot.
  assert (Hsep : Str.rfind Path.sep (String "." s) = -1
                 ∨ 1 ≤ Str.rfind Path.sep (String "." s)).
  { unfold Str.rfind. simpl. apply rfind_from_bounds. }
  destruct Hsep as [->|Hsep]; [done|].
  destruct (Z.ltb_spec (Str.rfind Path.sep (String "." s)) 0); [lia|done].
Qed.

(** ** The heap: what a run may write to *)

Section Frame.
Variable h0 : list (gset string).

Lemma keeps_weaken {A} (m : M A) (P Q : A → Prop) :
  keeps h0 m P → (∀ a, P a → Q a) → keeps h0 m Q.
Proof. intros Hm HPQ w Hw. destruct (Hm w Hw). split; auto. Qed.

Lemma keeps_ret {A} (a : A) (P : A → Prop) : P a → keeps h0 (mret a) P.
Proof. intros HP w Hw. split; [done|]. intros a' [= <-]. done. Qed.

Lemma keeps_raise {A} e (P : A → Prop) : keeps h0 (raise e) P.
Proof. intros w Hw. split; [done|]. intros a' [=]. Qed.

Lemma keeps_bind {A B} (m : M A) (k : A → M B) (P : A → Prop) (Q : B → Prop) :
  keeps h0 m P → (∀ a, P a → keeps h0 (k a) Q) → keeps h0 (m ≫= k) Q.
Proof.
  intros Hm Hk w Hw. unfold mbind, M_bind, bind.
  destruct (Hm w Hw) as [Hh HP]. destruct (m w) as [[a|e] w']; simpl in *.
  - apply Hk; auto.
  - split; [done|]. intros ? [=].
Qed.

Lemma keeps_try_except {A} (m : M A) (h : string → M A) (P Q : A → Prop) :
  keeps h0 m P → (∀ a, P a → Q a) → (∀ e, keeps h0 (h e) Q) →
  keeps h0 (try_except m h) Q.
Proof.
  intros Hm HPQ Hh w Hw. unfold try_except.
  destruct (Hm w Hw) as [Hh' HP]. destruct (m w) as [[a|e] w']; simpl in *.
  - split; [done|]. intros ? [= <-]. auto.
  - by apply Hh.
Qed.

Lemma keeps_log l msg : keeps h0 (log l msg) (λ _, True).
Proof. intros w Hw. done. Qed.

Lemma keeps_deref r : keeps h0 (deref r) (λ _, True).
Proof. intros w Hw. done. Qed.

(** A new object lies outside [h0]. *)
Lemma keeps_alloc s : keeps h0 (alloc s) (λ r, length h0 ≤ r)%nat.
Proof.
  intros w Hw. simpl. split; [by apply prefix_app_r|].
  intros a [= <-]. by apply prefix_length.
Qed.

Lemma keeps_set_copy r : keeps h0 (set_copy r) (λ r', length h0 ≤ r')%nat.
Proof.
  unfold set_copy. eapply keeps_bind; [apply keeps_deref|].
  intros s _. apply keeps_alloc.
Qed.

Lemma keeps_set_of_list xs : keeps h0 (set_of_list xs) (λ r', length h0 ≤ r')%nat.
Proof. apply keeps_alloc. Qed.

(** Updating in place is harmless on an object outside [h0]. *)
Lemma keeps_set_update r xs :
  (length h0 ≤ r)%nat → keeps h0 (set_update r xs) (λ _, True).
Proof.
  intros Hr w [k Hk]. simpl. split; [|done].
  rewrite Hk. rewrite insert_app_r_alt by done. by apply prefix_app_r.
Qed.

Lemma keeps_set_of_user_or_default uc key dflt :
  keeps h0 (set_of_user_or_default uc key dflt) (λ r', length h0 ≤ r')%nat.
Proof.
  unfold set_of_user_or_default.
  destruct (uc !! key); [apply keeps_set_of_list|apply keeps_set_copy].
Qed.

Lemma keeps_default_config :
  keeps h0 default_config
    (λ c, length h0 ≤ ref_ignored_dirs c ∧ length h0 ≤ ref_ignored_files c
          ∧ length h0 ≤ ref_ignored_extensions c)%nat.
Proof.
  unfold default_config.
  eapply keeps_bind; [apply keeps_set_copy|]. intros ad _.
  eapply keeps_bind; [apply keeps_set_copy|]. intros af _.
  eapply keeps_bind; [apply keeps_set_copy|]. intros ae _.
  eapply keeps_bind; [apply keeps_set_copy|]. intros id Hid.
  eapply keeps_bind; [apply keeps_set_copy|]. intros if_ Hif.
  eapply keeps_bind; [apply keeps_set_copy|]. intros ie Hie.
  by apply keeps_ret.
Qed.

Lemma keeps_load_config env root_path :
  keeps h0 (load_config env root_path) (λ _, True).
Proof.
  unfold load_config.
  eapply keeps_bind; [apply keeps_default_config|]. intros config (Hid & Hif & Hie).
  cbv zeta.
  destruct (e_tomllib env).
  - destruct (e_toml env _) as [|err|data].
    + eapply keeps_bind; [apply keeps_log|]. intros _ _. by apply keeps_ret.
    + eapply keeps_bind; [apply keeps_log|]. intros _ _.
      eapply keeps_bind; [apply keeps_log|]. intros _ _. by apply keeps_ret.
    + eapply keeps_bind; [apply keeps_log|]. intros _ _.
      destruct (negb _).
      * eapply keeps_bind; [apply keeps_log|]. intros _ _.
        eapply keeps_bind; [apply keeps_set_of_user_or_default|]. intros ad' _.
        eapply keeps_bind; [apply keeps_set_of_user_or_default|]. intros af' _.
        eapply keeps_bind; [apply keeps_set_of_user_or_default|]. intros ae' _.
        eapply keeps_bind; [by apply keeps_set_update|]. intros _ _.
        eapply keeps_bind; [by apply keeps_set_update|]. intros _ _.
        eapply keeps_bind; [by apply keeps_set_update|]. intros _ _.
        by apply keeps_ret.
      * eapply keeps_bind; [apply keeps_log|]. intros _ _. by apply keeps_ret.
  - eapply keeps_bind; [apply keeps_log|]. intros _ _. by apply keeps_ret.
Qed.

End Frame.

Section FrameMain.
Variable h0 : list (gset string).
Variable env : os_env.

Ltac step lem := eapply keeps_bind; [lem|]; intros ? ?.

Lemma keeps_load_gitignore_spec root_path :
  keeps h0 (load_gitignore_spec env root_path) (λ _, True).
Proof.
  unfold load_gitignore_spec. destruct (e_gitignore env _).
  - by apply keeps_ret.
  - step ltac:(apply keeps_log). apply keeps_raise.
  - step ltac:(apply keeps_log). by apply keeps_ret.
Qed.

Lemma keeps_discovered root_directory tree config spec :
  keeps h0 (discovered env root_directory tree config spec) (λ _, True).
Proof. intros w Hw. done. Qed.

Lemma keeps_open_write path : keeps h0 (open_write path env) (λ _, True).
Proof.
  unfold open_write. destruct (e_writable env path); [|apply keeps_raise].
  intros w Hw. done.
Qed.

Lemma keeps_write path text : keeps h0 (write path text) (λ _, True).
Proof. intros w Hw. done. Qed.

Lemma keeps_write_one root_directory output_file r full_path :
  keeps h0 (write_one env root_directory output_file r full_path) (λ _, True).
Proof.
  unfold write_one. destruct (e_read env full_path) as [bytes|].
  - destruct (utf8_decode Ignore bytes).
    + step ltac:(apply keeps_write). by apply keeps_ret.
    + destruct r; [|apply keeps_raise].
      step ltac:(apply keeps_log). by apply keeps_ret.
  - step ltac:(apply keeps_log). by apply keeps_ret.
Qed.

Lemma keeps_write_all root_directory output_file r files :
  keeps h0 (write_all env root_directory output_file r files) (λ _, True).
Proof.
  revert r. induction files as [|full_path rest IH]; intros r; simpl.
  - by apply keeps_ret.
  - step ltac:(apply keeps_write_one). apply IH.
Qed.

Lemma keeps_discover_phase root_directory tree :
  keeps h0 (discover_phase env root_directory tree) (λ _, True).
Proof.
  unfold discover_phase.
  step ltac:(apply keeps_load_config). cbv zeta.
  step ltac:(apply keeps_log).
  step ltac:(apply keeps_load_gitignore_spec).
  apply keeps_discovered.
Qed.

Lemma keeps_write_phase root_directory output_file files :
  keeps h0 (write_phase env root_directory output_file files) (λ _, True).
Proof.
  unfold write_phase. cbv zeta.
  step ltac:(apply keeps_open_write).
  step ltac:(apply keeps_write).
  step ltac:(apply keeps_log).
  step ltac:(apply keeps_write_all).
  apply keeps_log.
Qed.

Lemma keeps_main a : keeps h0 (main env a) (λ _, True).
Proof.
  unfold main. cbv zeta. destruct (e_dir env _) as [tree|]; [|apply keeps_log].
  eapply keeps_try_except with (P := λ _, True); [|done|intros; apply keeps_log].
  step ltac:(apply keeps_discover_phase). cbv zeta.
  destruct (bool_decide _); [apply keeps_log|apply keeps_write_phase].
Qed.

End FrameMain.

Lemma prefix_take {A} (l1 l2 : list A) : l1 `prefix_of` l2 → take (length l1) l2 = l1.
Proof. intros [k ->]. by rewrite take_app_length. Qed.

(** C5. Neither [load_config] nor a whole run of [main] (which goes on
    to [discover_files]) writes to a set object that existed before: the
    heap it leaves extends the heap it found.  The six module-level
    defaults therefore hold their initial values after a run and after a
    second run on top of it: what the user adds goes into copies. *)
Theorem defaults_never_mutated env root_path a env2 a2 w :
  w_heap w `prefix_of` w_heap (load_config env root_path w).2
  ∧ w_heap w `prefix_of` w_heap (main env a w).2
  ∧ take 6 (w_heap (main env a initial_world).2) = module_heap
  ∧ take 6 (w_heap (main env2 a2 (main env a initial_world).2).2) = module_heap.
Proof.
  assert (H1 : ∀ w', module_heap `prefix_of` w_heap w' →
                     module_heap `prefix_of` w_heap (main env a w').2).
  { intros w' Hw'. by apply (keeps_main module_heap env a w'). }
  assert (H2 : ∀ w', module_heap `prefix_of` w_heap w' →
                     module_heap `prefix_of` w_heap (main env2 a2 w').2).
  { intros w' Hw'. by apply (keeps_main module_heap env2 a2 w'). }
  split_and!.
  - by apply (keeps_load_config (w_heap w) env root_path w).
  - by apply (keeps_main (w_heap w) env a w).
  - apply (prefix_take module_heap). by apply H1.
  - apply (prefix_take module_heap). by apply H2, H1.
Qed.

(** ** [load_config] without a user configuration *)

Lemma lookup_total_alloc (h l : list (gset string)) k :
  (h ++ l) !!! (length h + k)%nat = l !!! k.
Proof.
  rewrite !list_lookup_total_alt. rewrite lookup_app_r by lia.
  by replace (length h + k - length h)%nat with k by lia.
Qed.

Lemma lookup_total_old (h l : list (gset string)) k :
  (k < length h)%nat → (h ++ l) !!! k = h !!! k.
Proof. intros Hk. rewrite !list_lookup_total_alt. by rewrite lookup_app_l. Qed.

Lemma default_config_run w :
  (6 ≤ length (w_heap w))%nat →
  default_config w
  = (Ok (fresh_config (w_heap w)),
     {| w_heap := with_copies (w_heap w); w_log := w_log w; w_files := w_files w |}).
Proof.
  intros Hlen. destruct w as [h lg fs]. simpl in *.
  unfold default_config, mbind, M_bind, bind, set_copy, deref, alloc, mret, M_ret, ret.
  simpl. unfold with_copies, fresh_config.
  unfold DEFAULT_ALLOWED_DIRS, DEFAULT_ALLOWED_FILES, DEFAULT_ALLOWED_EXTENSIONS,
    DEFAULT_IGNORED_DIRS, DEFAULT_IGNORED_FILES, DEFAULT_IGNORED_EXTENSIONS.
  rewrite !lookup_total_old by (rewrite ?length_app; simpl; lia).
  rewrite !length_app. simpl. rewrite <- !app_assoc. simpl.
  rewrite <- !Nat.add_assoc. reflexivity.
Qed.

Lemma defaults_in_place (h : list (gset string)) k :
  take 6 h = module_heap → (k < 6)%nat → h !!! k = module_heap !!! k.
Proof. intros <- Hk. by rewrite lookup_total_take_lt. Qed.

Lemma defaults_allocated (h : list (gset string)) :
  take 6 h = module_heap → (6 ≤ length h)%nat.
Proof.
  intros H. apply (f_equal length) in H. rewrite length_take in H.
  change (length module_heap) with 6%nat in H. lia.
Qed.

Lemma resolve_with_copies h :
  take 6 h = module_heap →
  resolve (with_copies h) (fresh_config h) = default_policy.
Proof.
  intros Hh. unfold resolve, with_copies, fresh_config. cbn [ref_allowed_dirs
    ref_allowed_files ref_allowed_extensions ref_ignored_dirs ref_ignored_files
    ref_ignored_extensions].
  rewrite <- (Nat.add_0_r (length h)) at 1.
  rewrite !lookup_total_alloc. cbn [lookup_total list_lookup_total].
  unfold DEFAULT_ALLOWED_DIRS, DEFAULT_ALLOWED_FILES, DEFAULT_ALLOWED_EXTENSIONS,
    DEFAULT_IGNORED_DIRS, DEFAULT_IGNORED_FILES, DEFAULT_IGNORED_EXTENSIONS.
  rewrite !(defaults_in_place h) by (done || lia). reflexivity.
Qed.

(** Without a user configuration [load_config] returns the six copies
    and only adds to the log. *)
Lemma load_config_no_user_config env root_path w :
  no_user_config env root_path →
  (6 ≤ length (w_heap w))%nat →
  ∃ lg, load_config env root_path w
        = (Ok (fresh_config (w_heap w)),
           {| w_heap := with_copies (w_heap w); w_log := lg; w_files := w_files w |}).
Proof.
  intros Hno Hlen. unfold load_config.
  unfold mbind at 1. unfold M_bind, bind. rewrite (default_config_run _ Hlen).
  cbv zeta. destruct (e_tomllib env) eqn:Et.
  - destruct Hno as [?|Hno]; [congruence|].
    destruct (e_toml env _) as [|err|data].
    + eexists. reflexivity.
    + eexists. reflexivity.
    + rewrite Hno. eexists. reflexivity.
  - eexists. reflexivity.
Qed.

(** C4. A configuration file whose [[tool.llmcontext]] section is empty
    or absent gives the same result as no configuration file: in both
    cases [load_config] returns normally, with the same references into
    the same heap, and the six sets they denote are the built-in
    defaults. *)
Theorem empty_section_same_as_no_file env env' root_path root_path' w data :
  take 6 (w_heap w) = module_heap →
  e_toml env (Path.join root_path CONFIG_FILENAME) = TomlData data →
  user_config_of data = ∅ →
  e_toml env' (Path.join root_path' CONFIG_FILENAME) = TomlAbsent →
  ∃ c w1 w1',
    load_config env root_path w = (Ok c, w1)
    ∧ load_config env' root_path' w = (Ok c, w1')
    ∧ w_heap w1 = w_heap w1'
    ∧ resolve (w_heap w1) c = default_policy
    ∧ resolve (w_heap w1') c = default_policy.
Proof.
  intros Hh Hdata Hempty Habsent.
  pose proof (defaults_allocated _ Hh) as Hlen.
  destruct (load_config_no_user_config env root_path w) as [lg Hrun]; [|done|].
  { right. by rewrite Hdata. }
  destruct (load_config_no_user_config env' root_path' w) as [lg' Hrun']; [|done|].
  { right. by rewrite Habsent. }
  eexists _, _, _. split_and!; [exact Hrun|exact Hrun'|done|..];
    by apply resolve_with_copies.
Qed.

Lemma empty_section_same_as_no_file_witness :
  ∃ c w1 w1',
    load_config (env_with_toml (TomlData empty_section_data)) "/proj" initial_world
    = (Ok c, w1)
    ∧ load_config (env_with_toml TomlAbsent) "/proj" initial_world = (Ok c, w1')
    ∧ w_heap w1 = w_heap w1'
    ∧ resolve (w_heap w1) c = default_policy
    ∧ resolve (w_heap w1') c = default_policy.
Proof.
  apply (empty_section_same_as_no_file
           (env_with_toml (TomlData empty_section_data)) (env_with_toml TomlAbsent)
           "/proj" "/proj" initial_world empty_section_data).
  - reflexivity.
  - reflexivity.
  - vm_compute. reflexivity.
  - reflexivity.
Defined.

Example absent_section_is_default :
  user_config_of absent_section_data = ∅.
Proof. vm_compute. reflexivity. Qed.

(** ** The output artifact *)

Section SameFiles.
Variable env : os_env.

Lemma bind_run {A B} (m : M A) (k : A → M B) w :
  (m ≫= k) w = match m w with
               | (Ok a, w') => k a w'
               | (Raise e, w') => (Raise e, w')
               end.
Proof. reflexivity. Qed.

Lemma default_config_files w : w_files (default_config w).2 = w_files w.
Proof. reflexivity. Qed.

Lemma load_config_files root_path w :
  w_files (load_config env root_path w).2 = w_files w.
Proof.
  unfold load_config. rewrite bind_run.
  destruct (default_config w) as [[c|e] w'] eqn:E;
    pose proof (default_config_files w) as Hf; rewrite E in Hf; simpl in Hf;
    [|done].
  cbv zeta. destruct (e_tomllib env); [|done].
  destruct (e_toml env _) as [|err|data]; [done|done|].
  rewrite bind_run. simpl. destruct (negb _); [|done].
  unfold set_of_user_or_default.
  destruct (_ !! "allowed_dirs"), (_ !! "allowed_files"),
    (_ !! "allowed_extensions"); done.
Qed.

Lemma load_gitignore_spec_files root_path w :
  w_files (load_gitignore_spec env root_path w).2 = w_files w.
Proof. unfold load_gitignore_spec. by destruct (e_gitignore env _). Qed.

(** Configuration, gitignore rules and discovery write no file. *)
Lemma discover_phase_files root_directory tree w :
  w_files (discover_phase env root_directory tree w).2 = w_files w.
Proof.
  unfold discover_phase. rewrite bind_run.
  pose proof (load_config_files root_directory w) as Hc.
  destruct (load_config env root_directory w) as [[c|e] w1]; simpl in Hc; [|done].
  rewrite bind_run. simpl. rewrite bind_run.
  pose proof (load_gitignore_spec_files root_directory
                {| w_heap := w_heap w1;
                   w_log := w_log w1 ++ [(INFO, "Starting to process project: '"
                                                 +:+ Path.basename root_directory +:+ "'")];
                   w_files := w_files w1 |}) as Hg.
  destruct (load_gitignore_spec env root_directory _) as [[s|e] w2]; simpl in *;
    congruence.
Qed.

End SameFiles.

(** C6. When discovery returns the empty list, [main] logs the warning
    and returns with the files of the process as they were: nothing is
    created or written.  Conversely a run that changes the files is one
    in which discovery returned a non-empty list: the output is opened
    after the emptiness test only. *)
Theorem no_output_when_nothing_found env a w :
  (∀ tree,
      e_dir env (Path.abspath (e_cwd env) (arg_root_directory a)) = Some tree →
      (discover_phase env (Path.abspath (e_cwd env) (arg_root_directory a)) tree w).1
      = Ok [] →
      (main env a w).1 = Ok ()
      ∧ w_files (main env a w).2 = w_files w
      ∧ w_log (main env a w).2
        = w_log (discover_phase env
                   (Path.abspath (e_cwd env) (arg_root_directory a)) tree w).2
          ++ [(WARNING, NO_FILES_MESSAGE)])
  ∧ (w_files (main env a w).2 ≠ w_files w →
     ∃ tree files,
       e_dir env (Path.abspath (e_cwd env) (arg_root_directory a)) = Some tree
       ∧ (discover_phase env
            (Path.abspath (e_cwd env) (arg_root_directory a)) tree w).1 = Ok files
       ∧ files ≠ []).
Proof.
  split.
  - intros tree Hdir Hrun. unfold main. cbv zeta. rewrite Hdir.
    unfold try_except. rewrite bind_run.
    pose proof (discover_phase_files env
                  (Path.abspath (e_cwd env) (arg_root_directory a)) tree w) as Hf.
    destruct (discover_phase env _ tree w) as [r w1]. simpl in Hrun, Hf.
    subst r. simpl. done.
  - unfold main. cbv zeta. destruct (e_dir env _) as [tree|]; [|done].
    unfold try_except. rewrite bind_run.
    pose proof (discover_phase_files env
                  (Path.abspath (e_cwd env) (arg_root_directory a)) tree w) as Hf.
    destruct (discover_phase env _ tree w) as [[files|e] w1] eqn:E; simpl in Hf.
    + cbv zeta. case_bool_decide as Hnil.
      * simpl. congruence.
      * intros _. exists tree, files. rewrite E. split_and!; auto.
    + simpl. congruence.
Qed.

(** Scenario B as a whole run: [secrets.key] is the only file, nothing is
    found, the run ends normally and no file is written. *)
Lemma no_output_when_nothing_found_witness :
  ((main env_nothing_found run_args initial_world).1 = Ok ()
   ∧ w_files (main env_nothing_found run_args initial_world).2 = ∅
   ∧ w_log (main env_nothing_found run_args initial_world).2
     = w_log (discover_phase env_nothing_found "/proj" (Dir [] ["secrets.key"])
                initial_world).2
       ++ [(WARNING, NO_FILES_MESSAGE)])
  ∧ ∃ tree files,
      e_dir env_binary "/proj" = Some tree
      ∧ (discover_phase env_binary "/proj" tree initial_world).1 = Ok files
      ∧ files ≠ [].
Proof.
  split.
  - apply (proj1 (no_output_when_nothing_found env_nothing_found run_args initial_world)
             (Dir [] ["secrets.key"])).
    + reflexivity.
    + vm_compute. reflexivity.
  - apply (proj2 (no_output_when_nothing_found env_binary run_args initial_world)).
    intros H. apply (f_equal (λ m, m !! "proj_context.md")) in H.
    vm_compute in H. discriminate H.
Defined.


(** C7, against the code.  [blob.py] holds the single byte 0xFF, which
    strict UTF-8 decoding rejects; [main] opens it with
    [errors='ignore'], reads the empty text and writes a block with an
    empty body for it.  The unreadable [locked.py] gets no block. *)
Theorem undecodable_file_gets_block :
  utf8_decode Strict blob_bytes = None
  ∧ (discover_phase env_binary "/proj"
       (Dir [] ["a.py"; "blob.py"; "locked.py"]) initial_world).1
    = Ok ["/proj/a.py"; "/proj/blob.py"; "/proj/locked.py"]
  ∧ w_files (main env_binary run_args initial_world).2 !! "proj_context.md"
    = Some ("# Context for Project: proj" +:+ nl +:+ nl
            +:+ file_block "a.py" "py" ("x = 1" +:+ nl)
            +:+ file_block "blob.py" "py" "").
Proof. split_and!; vm_compute; reflexivity. Qed.

(** The heading of a block is the relative path the discovery engine
    computed for the same file. *)
Lemma block_heading cwd root_directory dirpath f content :
  block_of cwd root_directory (Path.join dirpath f) content
  = file_block (relative_path cwd root_directory dirpath f)
      (Str.lstrip "." (Path.splitext (relative_path cwd root_directory dirpath f)).2)
      content.
Proof. reflexivity. Qed.




(** ** [relpath] gives back the components below the root *)

Section Relpath.

Lemma rev_app_app a b c : String.rev_app a b +:+ c = String.rev_app a (b +:+ c).
Proof. revert b. induction a as [|x a IH]; intros b; [done|]. simpl. by rewrite IH. Qed.

Lemma split_go_app_sep c cur s1 s2 :
  Str.split_go c cur (s1 +:+ String c s2)
  = Str.split_go c cur s1 ++ Str.split_go c EmptyString s2.
Proof.
  revert cur. induction s1 as [|x s1 IH]; intros cur.
  - rewrite app_empty_l. simpl. by rewrite Ascii.eqb_refl.
  - rewrite app_cons. simpl. destruct (Ascii.eqb x c); [|apply IH].
    rewrite IH. done.
Qed.

Lemma split_app_sep c s1 s2 :
  Str.split c (s1 +:+ String c s2) = Str.split c s1 ++ Str.split c s2.
Proof. apply split_go_app_sep. Qed.

Lemma split_go_no_sep c cur s :
  Str.contains c s = false → Str.split_go c cur s = [String.rev cur +:+ s].
Proof.
  revert cur. induction s as [|x s IH]; intros cur Hs.
  - simpl. by rewrite app_empty_r.
  - simpl in *. apply orb_false_iff in Hs as [-> Hs]. rewrite (IH _ Hs).
    unfold String.rev. simpl. by rewrite !rev_app_app.
Qed.

Lemma split_no_sep c s : Str.contains c s = false → Str.split c s = [s].
Proof. intros Hs. unfold Str.split. by rewrite split_go_no_sep. Qed.

(** The pieces [split] returns hold no separator. *)
Lemma split_go_pieces c cur s :
  Str.contains c cur = false →
  Forall (λ x, Str.contains c x = false) (Str.split_go c cur s).
Proof.
  assert (Hrev : ∀ a b, Str.contains c (String.rev_app a b)
                        = Str.contains c a || Str.contains c b).
  { induction a as [|x a IH]; intros b; [done|]. simpl. rewrite IH. simpl.
    destruct (Ascii.eqb x c), (Str.contains c a), (Str.contains c b); done. }
  revert cur. induction s as [|x s IH]; intros cur Hcur; simpl.
  - constructor; [|constructor]. unfold String.rev. by rewrite Hrev, Hcur.
  - destruct (Ascii.eqb x c) eqn:E.
    + constructor; [|by apply IH]. unfold String.rev. by rewrite Hrev, Hcur.
    + apply IH. simpl. by rewrite E.
Qed.

Lemma split_pieces c s : Forall (λ x, Str.contains c x = false) (Str.split c s).
Proof. by apply split_go_pieces. Qed.

Lemma split_rel_string p f :
  Forall (λ d, valid_name d = true) p → valid_name f = true →
  Str.split Path.sep (rel_string p f) = p ++ [f].
Proof.
  intros Hp Hf. induction Hp as [|d p Hd Hp IH]; simpl.
  - by apply split_no_sep, valid_name_no_sep.
  - rewrite split_app_sep, IH. by rewrite (split_no_sep _ d) by by apply valid_name_no_sep.
Qed.

Lemma norm_comps_app b acc l1 l2 :
  Path.norm_comps b acc (l1 ++ l2)
  = Path.norm_comps b (rev (Path.norm_comps b acc l1)) l2.
Proof.
  revert acc. induction l1 as [|x l1 IH]; intros acc; simpl.
  - by rewrite rev_involutive.
  - destruct (_ || _); [apply IH|]. destruct (_ || _); apply IH.
Qed.

Lemma norm_comps_valid b acc l :
  Forall (λ d, valid_name d = true) l → Path.norm_comps b acc l = rev acc ++ l.
Proof.
  intros Hl. revert acc. induction Hl as [|x l Hx Hl IH]; intros acc; simpl.
  - by rewrite app_nil_r.
  - destruct (valid_name_not_dots _ Hx) as (H1 & H2 & H3).
    rewrite !bool_decide_eq_false_2 by done. simpl.
    rewrite IH. simpl. by rewrite <- app_assoc.
Qed.

Lemma norm_comps_kept b acc l :
  Forall kept_comp acc → Forall (λ x, Str.contains Path.sep x = false) l →
  Forall kept_comp (Path.norm_comps b acc l).
Proof.
  intros Hacc Hl. revert acc Hacc. induction Hl as [|x l Hx Hl IH]; intros acc Hacc; simpl.
  - rewrite Forall_forall in Hacc. apply Forall_forall.
    intros y Hy%list_elem_of_In%in_rev%list_elem_of_In. auto.
  - destruct (bool_decide (x = "")) eqn:E1; [by apply IH|].
    destruct (bool_decide (x = Path.curdir)); simpl; [by apply IH|].
    apply bool_decide_eq_false in E1.
    match goal with |- context [if ?c then _ else _] => destruct c end.
    + apply IH. constructor; [|done]. split; [by destruct x|done].
    + apply IH. destruct Hacc; [constructor|done].
Qed.

Lemma filter_split_join l :
  Forall kept_comp l →
  filter (λ x, Is_true (Str.nonempty x)) (Str.split Path.sep (Str.join Path.sep_s l)) = l.
Proof.
  intros Hl. induction Hl as [|x l [Hx1 Hx2] Hl IH].
  - done.
  - destruct l as [|y l].
    + simpl. rewrite (split_no_sep _ _ Hx2). rewrite filter_cons_True; [done|].
      by rewrite Hx1.
    + change (Str.join Path.sep_s (x :: y :: l))
        with (x +:+ String Path.sep (Str.join Path.sep_s (y :: l))).
      rewrite split_app_sep, (split_no_sep _ _ Hx2), filter_app, IH.
      rewrite filter_cons_True; [done|]. by rewrite Hx1.
Qed.

Lemma startswith_sep s : Str.startswith Path.sep_s s = true → ∃ r, s = String Path.sep r.
Proof.
  destruct s as [|x r]; [done|]. unfold Str.startswith, Path.sep_s.
  cbn [String.prefix]. destruct (ascii_dec "/" x) as [<-|]; [eauto|done].
Qed.

(** On an absolute path, the components of [normpath]'s result are the
    components its loop keeps. *)
Lemma normpath_abs_comps s :
  Path.isabs s = true →
  filter (λ x, Is_true (Str.nonempty x)) (Str.split Path.sep (Path.normpath s))
  = Path.norm_comps true [] (Str.split Path.sep s).
Proof.
  intros Habs. unfold Path.isabs in Habs.
  destruct (startswith_sep _ Habs) as [r ->].
  unfold Path.normpath. rewrite Habs. cbn [Str.nonempty negb].
  set (nl := Path.norm_comps _ [] _).
  assert (Hnl : Forall kept_comp (Path.norm_comps true [] (Str.split Path.sep (String Path.sep r)))).
  { apply norm_comps_kept; [constructor|apply split_pieces]. }
  assert (E1 : ∀ x, "/" +:+ x = "" +:+ String Path.sep x) by reflexivity.
  assert (E2 : ∀ x, "//" +:+ x = "" +:+ String Path.sep ("" +:+ String Path.sep x))
    by reflexivity.
  assert (N1 : ∀ x, Str.nonempty ("/" +:+ x) = true) by reflexivity.
  assert (N2 : ∀ x, Str.nonempty ("//" +:+ x) = true) by reflexivity.
  assert (F : filter (λ x, Is_true (Str.nonempty x)) (Str.split Path.sep "") = []).
  { change (Str.split Path.sep "") with [""].
    rewrite filter_cons_False by (by intros []). done. }
  destruct (_ && _); cbn [Nat.eqb negb] in nl; subst nl.
  - rewrite N2, E2, !split_app_sep, !filter_app, !F. simpl.
    by rewrite filter_split_join.
  - rewrite N1, E1, !split_app_sep, !filter_app, !F. simpl.
    by rewrite filter_split_join.
Qed.

Lemma last_is_inv c s : Str.last_is c s = true → ∃ s0, s = s0 +:+ String c "".
Proof.
  induction s as [|x s IH]; [done|]. simpl. destruct s as [|y s].
  - intros ->%Ascii.eqb_eq. by exists "".
  - intros [s0 ->]%IH. by exists (String x s0).
Qed.

(** Splitting the path of a file: the components of the root, then the
    names below it. *)
Lemma norm_comps_full_path root p f :
  Path.isabs root = true →
  Forall (λ d, valid_name d = true) p → valid_name f = true →
  Path.norm_comps true [] (Str.split Path.sep (join_base root +:+ rel_string p f))
  = Path.norm_comps true [] (Str.split Path.sep root) ++ p ++ [f].
Proof.
  intros Habs Hp Hf.
  assert (Hpf : Forall (λ d, valid_name d = true) (p ++ [f])).
  { apply Forall_app. split; [done|by constructor]. }
  unfold join_base. destruct (startswith_sep _ Habs) as [r ->].
  cbn [Str.nonempty negb orb].
  destruct (Str.last_is Path.sep (String Path.sep r)) eqn:El.
  - destruct (last_is_inv _ _ El) as [s0 Hs0]. rewrite Hs0.
    rewrite app_assoc'. change (String Path.sep "" +:+ ?x) with (String Path.sep x).
    rewrite !split_app_sep, split_rel_string by done.
    change (Str.split Path.sep "") with [""].
    rewrite (norm_comps_app _ _ _ (p ++ [f])), (norm_comps_app _ _ _ [""]).
    rewrite (norm_comps_valid _ _ (p ++ [f])) by done. rewrite !rev_involutive.
    simpl. by rewrite rev_involutive.
  - rewrite app_assoc'. change (Path.sep_s +:+ ?x) with (String Path.sep x).
    rewrite split_app_sep, split_rel_string by done.
    rewrite norm_comps_app, (norm_comps_valid _ _ (p ++ [f])) by done.
    by rewrite rev_involutive.
Qed.

Lemma commonprefix_app l m : Path.commonprefix l (l ++ m) = l.
Proof.
  induction l as [|x l IH]; [by destruct m|]. simpl.
  rewrite bool_decide_eq_true_2 by done. by rewrite IH.
Qed.

Lemma join_all_rel_string p f x rest :
  Forall (λ d, valid_name d = true) p → valid_name f = true →
  p ++ [f] = x :: rest → Path.join_all x rest = rel_string p f.
Proof.
  intros Hp Hf E. destruct Hp as [|d p Hd Hp]; simpl in E;
    injection E as Ex Er; subst x rest.
  - done.
  - unfold Path.join_all. rewrite foldl_snoc.
    pose proof (full_path_string d p f Hp Hf) as H. unfold Path.join_all in H.
    rewrite H. simpl. unfold join_base.
    rewrite (valid_name_nonempty _ Hd). simpl.
    destruct (Str.last_is Path.sep d) eqn:El; [|by rewrite app_assoc'].
    apply last_is_contains in El. by rewrite (valid_name_no_sep _ Hd) in El.
Qed.

Lemma full_path_isabs root p f :
  Path.isabs root = true →
  Forall (λ d, valid_name d = true) p → valid_name f = true →
  Path.isabs (Path.join (Path.join_all root p) f) = true.
Proof.
  intros Habs Hp Hf. rewrite full_path_string by done.
  destruct (startswith_sep _ Habs) as [r ->]. unfold join_base.
  destruct (_ || _); rewrite ?app_cons;
    unfold Path.isabs, Str.startswith, Path.sep_s, Path.sep; cbn [String.prefix];
    (destruct (ascii_dec "/" "/"); [|done]);
    match goal with |- String.prefix "" ?x = true => by destruct x end.
Qed.

(** The relative path the program computes for an entry below an
    absolute root is the list of names leading to it, joined by "/". *)
Lemma relative_path_rel_string cwd root p f :
  Path.isabs root = true →
  Forall (λ d, valid_name d = true) p → valid_name f = true →
  relative_path cwd root (Path.join_all root p) f = rel_string p f.
Proof.
  intros Habs Hp Hf. unfold relative_path. rewrite replace_same.
  unfold Path.relpath, Path.abspath.
  rewrite (full_path_isabs _ _ _ Habs Hp Hf), Habs.
  rewrite !normpath_abs_comps by auto using full_path_isabs.
  rewrite full_path_string by done.
  rewrite (norm_comps_full_path _ _ _ Habs Hp Hf).
  rewrite commonprefix_app, Nat.sub_diag, drop_app_length. simpl.
  destruct (p ++ [f]) as [|x rest] eqn:E; [by destruct p|].
  by apply (join_all_rel_string p f).
Qed.

End Relpath.

Example relative_path_rel_string_ex :
  relative_path "/home/u" "//srv/./proj/" (Path.join_all "//srv/./proj/" ["a"; "b"]) "c.py"
  = "a/b/c.py".
Proof. vm_compute. reflexivity. Qed.

(** ** The default policy at any depth *)

Lemma default_ignored_files_no_sep x :
  x ∈ ignored_files default_policy → Str.contains Path.sep x = false.
Proof.
  intros Hx%elem_of_list_to_set.
  repeat (apply elem_of_cons in Hx as [->|Hx]; [reflexivity|]).
  by apply elem_of_nil in Hx.
Qed.

Lemma default_ignored_dirs_no_sep x :
  x ∈ ignored_dirs default_policy → Str.contains Path.sep x = false.
Proof.
  intros Hx%elem_of_list_to_set.
  repeat (apply elem_of_cons in Hx as [->|Hx]; [reflexivity|]).
  by apply elem_of_nil in Hx.
Qed.

Lemma rel_string_contains_sep d p f :
  Str.contains Path.sep (rel_string (d :: p) f) = true.
Proof. simpl. rewrite contains_app. simpl. by rewrite orb_true_r. Qed.

(** A relative path is in a set of separator-free entries only as a
    top-level name. *)
Lemma rel_string_elem_of (S : gset string) p f :
  (∀ x, x ∈ S → Str.contains Path.sep x = false) →
  rel_string p f ∈ S → f ∈ S.
Proof.
  intros HS Hin. destruct p as [|d p]; [done|].
  apply HS in Hin. by rewrite rel_string_contains_sep in Hin.
Qed.

Lemma spec_matches_inactive spec x : spec_truthy spec = false → spec_matches spec x = false.
Proof.
  unfold spec_truthy, spec_matches. destruct spec as [s|]; [|done].
  by intros ->.
Qed.

Section DefaultPolicy.
Variable cwd root : string.
Variable spec : option PathSpec.
Hypothesis Habs : Path.isabs root = true.
Hypothesis Hspec : spec_truthy spec = false.

(** Under the default policy and without a matcher, a directory is
    pruned exactly when its name is an entry of the ignored directories. *)
Lemma dir_pruned_default p d :
  Forall (λ x, valid_name x = true) p → valid_name d = true →
  dir_pruned cwd root default_policy spec (Path.join_all root p) d
  = bool_decide (d ∈ ignored_dirs default_policy).
Proof.
  intros Hp Hd. unfold dir_pruned.
  rewrite relative_path_rel_string by done.
  rewrite spec_matches_inactive by done. rewrite orb_false_r.
  destruct (bool_decide (d ∈ ignored_dirs default_policy)) eqn:E; [done|].
  apply bool_decide_eq_false in E. simpl.
  apply bool_decide_eq_false. intros Hin. apply E.
  by apply (rel_string_elem_of _ p), Hin; apply default_ignored_dirs_no_sep.
Qed.

Lemma path_kept_default p0 p :
  Forall (λ x, valid_name x = true) p0 →
  Forall (λ x, valid_name x = true) p →
  Forall (λ d, d ∉ ignored_dirs default_policy) p →
  path_kept cwd root default_policy spec (Path.join_all root p0) p = true.
Proof.
  intros Hp0 Hp. revert p0 Hp0. induction Hp as [|d p Hd Hp IH]; intros p0 Hp0 Hk; [done|].
  apply Forall_cons in Hk as [Hd' Hk]. simpl.
  rewrite dir_pruned_default by done.
  rewrite bool_decide_eq_false_2 by done. simpl.
  replace (Path.join (Path.join_all root p0) d) with (Path.join_all root (p0 ++ [d]))
    by (unfold Path.join_all; by rewrite foldl_snoc).
  apply IH; [|done]. apply Forall_app. split; [done|by constructor].
Qed.

(** A file the default sets do not name is found wherever the traversal
    comes across it. *)
Lemma default_policy_includes t p f :
  wf_dir t = true → file_at t p f →
  path_kept cwd root default_policy spec root p = true →
  f ∉ ignored_files default_policy →
  (Path.splitext f).2 ∉ ignored_extensions default_policy →
  Path.join (Path.join_all root p) f ∈ discover_files cwd root default_policy spec t.
Proof.
  intros Hwf Hat Hk Hf Hext. apply elem_of_discover_files.
  exists p, f. split_and!; auto. unfold file_included.
  destruct (file_at_valid _ _ _ Hwf Hat) as [Hp Hfv].
  rewrite relative_path_rel_string by done.
  assert (is_force_allowed default_policy (rel_string p f) (Path.splitext f).2 = false)
    as ->.
  { unfold is_force_allowed. cbn [allowed_files allowed_extensions default_policy].
    unfold DEFAULT_ALLOWED_FILES_init, DEFAULT_ALLOWED_EXTENSIONS_init.
    rewrite !bool_decide_eq_false_2 by apply not_elem_of_empty.
    by rewrite andb_false_r. }
  assert (allowed_paths default_policy = []) as -> by reflexivity.
  cbn [bool_decide negb andb].
  rewrite bool_decide_eq_true_2 by done. cbn [negb andb].
  assert (is_ignored default_policy f (rel_string p f) (Path.splitext f).2 = false) as ->.
  { unfold is_ignored. rewrite !bool_decide_eq_false_2; [by rewrite andb_false_r|done| |done].
    intros Hin. apply Hf.
    by apply (rel_string_elem_of _ p), Hin; apply default_ignored_files_no_sep. }
  by rewrite spec_matches_inactive.
Qed.

End DefaultPolicy.

(** C8. The tests against [ignored_dirs] and [ignored_files] compare
    whole strings: an entry [e] of either set has no effect on a
    directory or file unless its name or its relative path is [e] itself,
    so the wildcard-looking defaults "*.swp", ".env.*" and "*.egg-info"
    only hit entries spelled with the asterisk.  Under the default
    policy with no matcher, a file named [editor.swp] is found wherever
    the traversal meets it and a directory named [pkg.egg-info] is never
    pruned; on a sample tree the look-alikes are found and the literal
    names are not. *)
Theorem ignore_membership_is_exact :
  (∀ cwd root_path config spec dirpath d e,
      d ≠ e → relative_path cwd root_path dirpath d ≠ e →
      dir_pruned cwd root_path config spec dirpath d
      = dir_pruned cwd root_path (remove_ignored_dir e config) spec dirpath d)
  ∧ (∀ cwd root_path config spec dirpath f e,
        f ≠ e → relative_path cwd root_path dirpath f ≠ e →
        file_included cwd root_path config spec dirpath f
        = file_included cwd root_path (remove_ignored_file e config) spec dirpath f)
  ∧ (∀ cwd root_path spec t p,
        Path.isabs root_path = true → spec_truthy spec = false →
        wf_dir t = true → file_at t p "editor.swp" →
        path_kept cwd root_path default_policy spec root_path p = true →
        Path.join (Path.join_all root_path p) "editor.swp"
          ∈ discover_files cwd root_path default_policy spec t)
  ∧ (∀ cwd root_path spec p,
        Path.isabs root_path = true → spec_truthy spec = false →
        Forall (λ x, valid_name x = true) p →
        dir_pruned cwd root_path default_policy spec
          (Path.join_all root_path p) "pkg.egg-info" = false)
  ∧ discover_files "/" "/proj" default_policy None wildcard_tree
    = ["/proj/editor.swp"; "/proj/.env.staging"; "/proj/pkg.egg-info/PKG-INFO"]
  ∧ visited_dirs "/" "/proj" default_policy None wildcard_tree
    = ["/proj"; "/proj/pkg.egg-info"].
Proof.
  split_and!; [| | | |vm_compute; reflexivity..].
  - intros cwd root_path config spec dirpath d e Hd Hrel.
    unfold dir_pruned. cbn [ignored_dirs remove_ignored_dir].
    by rewrite !bool_decide_elem_of_remove.
  - intros cwd root_path config spec dirpath f e Hf Hrel.
    unfold file_included, is_ignored. cbn [ignored_files remove_ignored_file].
    by rewrite !bool_decide_elem_of_remove.
  - intros cwd root_path spec t p Habs Hspec Hwf Hat Hk.
    apply default_policy_includes; auto.
    + apply (bool_decide_unpack _). vm_compute. exact I.
    + apply (bool_decide_unpack _). vm_compute. exact I.
  - intros cwd root_path spec p Habs Hspec Hp.
    rewrite dir_pruned_default by done. vm_compute. reflexivity.
Qed.

Lemma ignore_membership_is_exact_witness :
  file_included "/" "/proj" default_policy None "/proj" "editor.swp"
  = file_included "/" "/proj" (remove_ignored_file "*.swp" default_policy) None
      "/proj" "editor.swp"
  ∧ dir_pruned "/" "/proj" default_policy None "/proj" "pkg.egg-info"
    = dir_pruned "/" "/proj" (remove_ignored_dir "*.egg-info" default_policy) None
        "/proj" "pkg.egg-info"
  ∧ "/proj/editor.swp" ∈ discover_files "/" "/proj" default_policy None wildcard_tree
  ∧ dir_pruned "/" "/proj" default_policy None (Path.join_all "/proj" ["src"])
      "pkg.egg-info" = false.
Proof.
  split_and!.
  - apply (proj1 (proj2 ignore_membership_is_exact)); [discriminate|].
    vm_compute. discriminate.
  - apply (proj1 ignore_membership_is_exact); [discriminate|].
    vm_compute. discriminate.
  - apply (proj1 (proj2 (proj2 ignore_membership_is_exact))
             "/" "/proj" None wildcard_tree []);
      [reflexivity|reflexivity|reflexivity| |reflexivity].
    constructor. apply list_elem_of_here.
  - apply (proj1 (proj2 (proj2 (proj2 ignore_membership_is_exact))) "/" "/proj" None);
      [reflexivity|reflexivity|].
    repeat constructor.
Defined.

(** C9. A file name made of a leading dot and no further dot has the
    empty extension, so neither [ignored_extensions] nor
    [allowed_extensions] has any say on it.  Under the default policy
    with no gitignore matcher a file named [.gitignore] is found wherever
    the traversal meets it, although ".gitignore" is an entry of the
    ignored extensions; so are [.gitattributes] and [.dockerignore] on a
    sample tree. *)
Theorem dotfile_has_no_extension :
  (∀ s, Str.contains "." s = false → (Path.splitext (String "." s)).2 = "")
  ∧ (∀ cwd root_path config spec dirpath s AE IE,
        Str.contains "." s = false →
        file_included cwd root_path (set_extensions AE IE config) spec dirpath (String "." s)
        = file_included cwd root_path config spec dirpath (String "." s))
  ∧ (∀ cwd root_path spec t p,
        Path.isabs root_path = true → spec_truthy spec = false →
        wf_dir t = true → file_at t p ".gitignore" →
        path_kept cwd root_path default_policy spec root_path p = true →
        Path.join (Path.join_all root_path p) ".gitignore"
          ∈ discover_files cwd root_path default_policy spec t)
  ∧ bool_decide (".gitignore" ∈ ignored_extensions default_policy) = true
  ∧ discover_files "/" "/proj" default_policy None dotfile_tree
    = ["/proj/.gitignore"; "/proj/.gitattributes";
       "/proj/sub/.dockerignore"; "/proj/sub/.gitignore"].
Proof.
  split_and!; [| | |vm_compute; reflexivity..].
  - intros s Hs. by rewrite splitext_dotfile.
  - intros cwd root_path config spec dirpath s AE IE Hs.
    unfold file_included, is_force_allowed, is_ignored.
    rewrite (splitext_dotfile _ Hs). reflexivity.
  - intros cwd root_path spec t p Habs Hspec Hwf Hat Hk.
    apply default_policy_includes; auto.
    + apply (bool_decide_unpack _). vm_compute. exact I.
    + apply (bool_decide_unpack _). vm_compute. exact I.
Qed.

Lemma dotfile_has_no_extension_witness :
  (Path.splitext ".gitignore").2 = "" ∧
  file_included "/" "/proj"
    (set_extensions {[ ".gitignore" ]} {[ ".gitignore" ]} default_policy)
    None "/proj" ".gitignore"
  = file_included "/" "/proj" default_policy None "/proj" ".gitignore"
  ∧ "/proj/sub/.gitignore" ∈ discover_files "/" "/proj" default_policy None dotfile_tree.
Proof.
  split_and!.
  - apply (proj1 dotfile_has_no_extension "gitignore"). reflexivity.
  - apply (proj1 (proj2 dotfile_has_no_extension) "/" "/proj" default_policy None
             "/proj" "gitignore"). reflexivity.
  - apply (proj1 (proj2 (proj2 dotfile_has_no_extension))
             "/" "/proj" None dotfile_tree ["sub"]);
      [reflexivity|reflexivity|reflexivity| |reflexivity].
    eapply file_below; [apply list_elem_of_here|].
    constructor. apply list_elem_of_further, list_elem_of_here.
Defined.

(** ** Sanity checks of the codec and of the scenarios of the specification *)

Example utf8_decode_ex1 :
  utf8_decode Strict (String "195" (String "169" "x")) = Some (String "195" (String "169" "x")).
Proof. reflexivity. Qed.

Example utf8_decode_ex2 :
  utf8_decode Ignore (String "226" (String "040" (String "161" "")))
  = Some (String "040" "")
  ∧ utf8_decode Strict (String "226" (String "040" (String "161" ""))) = None.
Proof. split; reflexivity. Qed.

Example universal_newlines_ex :
  universal_newlines (String "097" (String "013" (String "010" (String "098" (String "013" "")))))
  = String "097" (String "010" (String "098" (String "010" ""))).
Proof. reflexivity. Qed.

(** Scenario B: [secrets.key] is excluded by the extension deny-list. *)
Example scenario_B_ok :
  discover_files "/" "/proj" default_policy None (Dir [] ["secrets.key"]) = [].
Proof. vm_compute. reflexivity. Qed.

(** Scenario D: [allowed_extensions = [".env"]] brings [secrets.env] back. *)
Example scenario_D_ok :
  discover_files "/" "/proj" scenario_D_policy (Some spec_everything) scenario_D
  = ["/proj/secrets.env"].
Proof. vm_compute. reflexivity. Qed.

(** A [PathSpec] without patterns counts as no matcher at all. *)
Example empty_spec_inactive :
  spec_truthy (Some {| spec_len := 0; match_file := λ _, true |}) = false.
Proof. reflexivity. Qed.

(** ** [load_config] with a user section *)

Lemma alloc_run (h L : list (gset string)) lg fs s :
  alloc s {| w_heap := h ++ L; w_log := lg; w_files := fs |}
  = (Ok (length h + length L)%nat,
     {| w_heap := h ++ (L ++ [s]); w_log := lg; w_files := fs |}).
Proof. unfold alloc. simpl. by rewrite length_app, <- app_assoc. Qed.

Lemma set_update_run (h L : list (gset string)) lg fs k xs :
  set_update (length h + k) xs {| w_heap := h ++ L; w_log := lg; w_files := fs |}
  = (Ok (), {| w_heap := h ++ <[k := (L !!! k) ∪ list_to_set xs]> L;
               w_log := lg; w_files := fs |}).
Proof.
  unfold set_update. simpl. rewrite lookup_total_alloc.
  rewrite insert_app_r_alt by lia.
  by replace (length h + k - length h)%nat with k by lia.
Qed.

Lemma set_of_user_or_default_run (h L : list (gset string)) lg fs uc key dflt init :
  h !!! dflt = init → (dflt < length h)%nat →
  set_of_user_or_default uc key dflt {| w_heap := h ++ L; w_log := lg; w_files := fs |}
  = (Ok (length h + length L)%nat,
     {| w_heap := h ++ (L ++ [from_option list_to_set init (uc !! key)]);
        w_log := lg; w_files := fs |}).
Proof.
  intros Hd Hlt. unfold set_of_user_or_default.
  destruct (uc !! key) as [xs|]; simpl.
  - unfold set_of_list. apply alloc_run.
  - unfold set_copy. rewrite bind_run. unfold deref. cbn [w_heap].
    rewrite lookup_total_old by done. rewrite Hd. apply alloc_run.
Qed.

(** The result of [load_config] on a non-empty user section, as a
    policy. *)
Lemma load_config_user_section env root_path w data :
  take 6 (w_heap w) = module_heap →
  e_tomllib env = true →
  e_toml env (Path.join root_path CONFIG_FILENAME) = TomlData data →
  user_config_of data ≠ ∅ →
  ∃ c w', load_config env root_path w = (Ok c, w')
          ∧ resolve (w_heap w') c = merged_policy (user_config_of data)
          ∧ w_files w' = w_files w.
Proof.
  intros Hh Ht Hd Hne. pose proof (defaults_allocated _ Hh) as Hlen.
  unfold load_config. rewrite bind_run, (default_config_run _ Hlen).
  cbv zeta. rewrite Ht, Hd. rewrite bool_decide_eq_false_2 by done. cbn [negb].
  destruct w as [h lg fs]. cbn [w_heap w_log w_files] in *.
  generalize (user_config_of data). intros uc.
  unfold with_copies.
  assert (Hdef : ∀ k, (k < 6)%nat → h !!! k = module_heap !!! k)
    by (intros; by apply defaults_in_place).
  rewrite !Hdef by (unfold DEFAULT_ALLOWED_DIRS,
    DEFAULT_ALLOWED_FILES, DEFAULT_ALLOWED_EXTENSIONS, DEFAULT_IGNORED_DIRS,
    DEFAULT_IGNORED_FILES, DEFAULT_IGNORED_EXTENSIONS; lia).
  assert (H3 : h !!! DEFAULT_ALLOWED_DIRS = DEFAULT_ALLOWED_DIRS_init)
    by (rewrite Hdef; [reflexivity|unfold DEFAULT_ALLOWED_DIRS; lia]).
  assert (H4 : h !!! DEFAULT_ALLOWED_FILES = DEFAULT_ALLOWED_FILES_init)
    by (rewrite Hdef; [reflexivity|unfold DEFAULT_ALLOWED_FILES; lia]).
  assert (H5 : h !!! DEFAULT_ALLOWED_EXTENSIONS = DEFAULT_ALLOWED_EXTENSIONS_init)
    by (rewrite Hdef; [reflexivity|unfold DEFAULT_ALLOWED_EXTENSIONS; lia]).
  rewrite bind_run. cbn [log]. rewrite bind_run. cbn [log w_heap w_log w_files].
  rewrite bind_run.
  rewrite (set_of_user_or_default_run h _ _ _ uc "allowed_dirs" DEFAULT_ALLOWED_DIRS
             DEFAULT_ALLOWED_DIRS_init H3) by (unfold DEFAULT_ALLOWED_DIRS; lia).
  rewrite bind_run.
  rewrite (set_of_user_or_default_run h _ _ _ uc "allowed_files" DEFAULT_ALLOWED_FILES
             DEFAULT_ALLOWED_FILES_init H4) by (unfold DEFAULT_ALLOWED_FILES; lia).
  rewrite bind_run.
  rewrite (set_of_user_or_default_run h _ _ _ uc "allowed_extensions"
             DEFAULT_ALLOWED_EXTENSIONS DEFAULT_ALLOWED_EXTENSIONS_init H5)
    by (unfold DEFAULT_ALLOWED_EXTENSIONS; lia).
  unfold update_from_user, fresh_config.
  cbn [ref_ignored_dirs ref_ignored_files ref_ignored_extensions].
  rewrite bind_run, set_update_run.
  rewrite bind_run, set_update_run.
  rewrite bind_run, set_update_run.
  eexists _, _. split; [reflexivity|]. split; [|reflexivity].
  unfold resolve. cbn [w_heap ref_allowed_dirs ref_allowed_files
    ref_allowed_extensions ref_ignored_dirs ref_ignored_files ref_ignored_extensions].
  cbn [length app]. rewrite !lookup_total_alloc. reflexivity.
Qed.

(** X1. [load_config] on a non-empty [[tool.llmcontext]] section returns
    normally a configuration whose allowed sets are the user's lists
    where the key is present and the defaults where it is not, and whose
    ignored sets are the defaults with the user's lists added. *)
Theorem load_config_replaces_allowed_adds_ignored env root_path w data :
  take 6 (w_heap w) = module_heap →
  e_tomllib env = true →
  e_toml env (Path.join root_path CONFIG_FILENAME) = TomlData data →
  user_config_of data ≠ ∅ →
  ∃ c w', load_config env root_path w = (Ok c, w')
          ∧ resolve (w_heap w') c = merged_policy (user_config_of data).
Proof.
  intros Hh Ht Hd Hne.
  destruct (load_config_user_section env root_path w data Hh Ht Hd Hne)
    as (c & w' & Hrun & Hres & _).
  by exists c, w'.
Qed.

Lemma load_config_replaces_allowed_adds_ignored_witness :
  ∃ c w', load_config (env_with_toml (TomlData sample_pyproject)) "/proj" initial_world
          = (Ok c, w')
          ∧ resolve (w_heap w') c = merged_policy (user_config_of sample_pyproject).
Proof.
  apply (load_config_replaces_allowed_adds_ignored
           (env_with_toml (TomlData sample_pyproject)) "/proj" initial_world
           sample_pyproject).
  - reflexivity.
  - reflexivity.
  - reflexivity.
  - intros H. apply (f_equal (λ m : gmap string (list string), m !! "allowed_dirs")) in H.
    vm_compute in H. discriminate H.
Defined.

Example merged_policy_sample :
  allowed_dirs (merged_policy sample_user_config) = {[ "src/" ]}
  ∧ allowed_files (merged_policy sample_user_config) = ∅
  ∧ bool_decide (".git" ∈ ignored_dirs (merged_policy sample_user_config)) = true
  ∧ bool_decide ("fixtures" ∈ ignored_dirs (merged_policy sample_user_config)) = true
  ∧ bool_decide (".snap" ∈ ignored_extensions (merged_policy sample_user_config)) = true.
Proof. split_and!; vm_compute; reflexivity. Qed.

(** X2. Whatever the configuration file holds, [load_config] returns
    normally and every built-in ignore entry is still ignored: a user
    section can add to the ignore sets, never take away from them. *)
Theorem load_config_keeps_default_ignores env root_path w :
  take 6 (w_heap w) = module_heap →
  ∃ c w', load_config env root_path w = (Ok c, w')
          ∧ DEFAULT_IGNORED_DIRS_init ⊆ ignored_dirs (resolve (w_heap w') c)
          ∧ DEFAULT_IGNORED_FILES_init ⊆ ignored_files (resolve (w_heap w') c)
          ∧ DEFAULT_IGNORED_EXTENSIONS_init
            ⊆ ignored_extensions (resolve (w_heap w') c).
Proof.
  intros Hh. pose proof (defaults_allocated _ Hh) as Hlen.
  destruct (e_tomllib env) eqn:Et.
  - destruct (e_toml env (Path.join root_path CONFIG_FILENAME)) as [|err|data] eqn:Ef.
    1,2: destruct (load_config_no_user_config env root_path w) as [lg Hrun];
      [right; by rewrite Ef|done|];
      eexists _, _; split; [exact Hrun|];
      cbn [w_heap]; rewrite resolve_with_copies by done; done.
    destruct (decide (user_config_of data = ∅)) as [He|Hne].
    + destruct (load_config_no_user_config env root_path w) as [lg Hrun];
        [right; by rewrite Ef|done|].
      eexists _, _. split; [exact Hrun|].
      cbn [w_heap]. rewrite resolve_with_copies by done. done.
    + destruct (load_config_user_section env root_path w data Hh Et Ef Hne)
        as (c & w' & Hrun & Hres & _).
      exists c, w'. split; [done|]. rewrite Hres. cbn.
      split_and!; apply union_subseteq_l.
  - destruct (load_config_no_user_config env root_path w) as [lg Hrun];
      [by left|done|].
    eexists _, _. split; [exact Hrun|].
    cbn [w_heap]. rewrite resolve_with_copies by done. done.
Qed.

Lemma load_config_keeps_default_ignores_witness :
  ∃ c w', load_config (env_with_toml (TomlData sample_pyproject)) "/proj" initial_world
          = (Ok c, w')
          ∧ DEFAULT_IGNORED_DIRS_init ⊆ ignored_dirs (resolve (w_heap w') c)
          ∧ DEFAULT_IGNORED_FILES_init ⊆ ignored_files (resolve (w_heap w') c)
          ∧ DEFAULT_IGNORED_EXTENSIONS_init
            ⊆ ignored_extensions (resolve (w_heap w') c).
Proof.
  apply (load_config_keeps_default_ignores
           (env_with_toml (TomlData sample_pyproject)) "/proj" initial_world).
  reflexivity.
Defined.

(** X3. Failure to read the configuration is not an error of the run.  A
    [pyproject.toml] that cannot be read or parsed gives the default
    policy and one ERROR record carrying the cause; without a TOML
    library the file is not even looked at, whatever it holds: default
    policy and one WARNING. *)
Theorem load_config_falls_back_to_defaults env root_path w :
  take 6 (w_heap w) = module_heap →
  (∀ err,
      e_tomllib env = true →
      e_toml env (Path.join root_path CONFIG_FILENAME) = TomlInvalid err →
      ∃ c w', load_config env root_path w = (Ok c, w')
              ∧ resolve (w_heap w') c = default_policy
              ∧ w_log w'
                = w_log w
                  ++ [(INFO, "Loading project configuration from: " +:+ CONFIG_FILENAME);
                      (ERROR, "Error reading or parsing " +:+ CONFIG_FILENAME
                              +:+ ": " +:+ err)])
  ∧ (e_tomllib env = false →
     ∃ c w', load_config env root_path w = (Ok c, w')
             ∧ resolve (w_heap w') c = default_policy
             ∧ w_log w' = w_log w ++ [(WARNING, TOML_MISSING_MESSAGE)]).
Proof.
  intros Hh. pose proof (defaults_allocated _ Hh) as Hlen. split.
  - intros err Ht Hf. unfold load_config.
    rewrite bind_run, (default_config_run _ Hlen). cbv zeta. rewrite Ht, Hf.
    eexists _, _. split; [reflexivity|]. cbn [w_heap w_log log].
    split; [by apply resolve_with_copies|]. cbn. by rewrite <- app_assoc.
  - intros Ht. unfold load_config.
    rewrite bind_run, (default_config_run _ Hlen). cbv zeta. rewrite Ht.
    eexists _, _. split; [reflexivity|]. cbn [w_heap w_log log].
    split; [by apply resolve_with_copies|]. reflexivity.
Qed.

Lemma load_config_falls_back_to_defaults_witness :
  (∃ c w', load_config (env_with_toml (TomlInvalid "Invalid statement (at line 1, column 1)"))
             "/proj" initial_world = (Ok c, w')
           ∧ resolve (w_heap w') c = default_policy
           ∧ w_log w'
             = [(INFO, "Loading project configuration from: " +:+ CONFIG_FILENAME);
                (ERROR, "Error reading or parsing " +:+ CONFIG_FILENAME
                        +:+ ": " +:+ "Invalid statement (at line 1, column 1)")])
  ∧ (∃ c w', load_config env_without_tomllib "/proj" initial_world = (Ok c, w')
             ∧ resolve (w_heap w') c = default_policy
             ∧ w_log w' = [(WARNING, TOML_MISSING_MESSAGE)]).
Proof.
  split.
  - apply (proj1 (load_config_falls_back_to_defaults
                    (env_with_toml (TomlInvalid "Invalid statement (at line 1, column 1)"))
                    "/proj" initial_world eq_refl)
             "Invalid statement (at line 1, column 1)").
    + reflexivity.
    + reflexivity.
  - apply (proj2 (load_config_falls_back_to_defaults
                    env_without_tomllib "/proj" initial_world eq_refl)).
    reflexivity.
Defined.

(** ** More on [discover_files] *)

(** X4. For a file of a well-formed tree, [discover_files] returns its
    path exactly when no directory on the way to it is pruned and the
    file loop accepts it: the result is neither more nor less than the
    files the two filters let through. *)
Theorem discover_files_decides cwd root_path config spec t p f :
  wf_dir t = true → file_at t p f →
  (Path.join (Path.join_all root_path p) f ∈ discover_files cwd root_path config spec t
   ↔ path_kept cwd root_path config spec root_path p = true
     ∧ file_included cwd root_path config spec (Path.join_all root_path p) f = true).
Proof.
  intros Hwf Hat. rewrite elem_of_discover_files. split.
  - intros (p' & f' & Hat' & Hk & Hi & E).
    destruct (file_at_valid _ _ _ Hwf Hat) as [Hp Hf].
    destruct (file_at_valid _ _ _ Hwf Hat') as [Hp' Hf'].
    apply full_path_inj in E as [<- <-]; auto.
  - intros [Hk Hi]. exists p, f. auto.
Qed.

Lemma discover_files_decides_witness :
  ("/proj/src/main.py" ∈ discover_files "/" "/proj" layered_policy None layered_tree)
  ↔ (path_kept "/" "/proj" layered_policy None "/proj" ["src"] = true
     ∧ file_included "/" "/proj" layered_policy None (Path.join_all "/proj" ["src"])
         "main.py" = true).
Proof.
  apply (discover_files_decides "/" "/proj" layered_policy None layered_tree
           ["src"] "main.py").
  - reflexivity.
  - eapply file_below; [apply list_elem_of_here|].
    constructor. apply list_elem_of_here.
Defined.

Example layered_tree_result :
  discover_files "/" "/proj" layered_policy None layered_tree
  = ["/proj/setup.py"; "/proj/src/main.py"]
  ∧ discover_files "/" "/proj" default_policy None layered_tree
    = ["/proj/setup.py"; "/proj/notes.txt"; "/proj/src/main.py"; "/proj/src/debug.trace";
       "/proj/src/gen/out.py"; "/proj/tests/test_main.py"]
  ∧ discover_files "/" "/proj" default_policy (Some spec_trace) layered_tree
    = ["/proj/setup.py"; "/proj/notes.txt"; "/proj/src/main.py";
       "/proj/src/gen/out.py"; "/proj/tests/test_main.py"].
Proof. split_and!; vm_compute; reflexivity. Qed.

(** X5. A file that is not force-allowed is left out as soon as its name
    or its relative path is in [ignored_files], its non-empty extension
    is in [ignored_extensions], or the active gitignore matcher matches
    its relative path. *)
Theorem ignored_file_is_excluded cwd root_path config spec t p f :
  wf_dir t = true → file_at t p f →
  is_force_allowed config
    (relative_path cwd root_path (Path.join_all root_path p) f)
    (Path.splitext f).2 = false →
  (f ∈ ignored_files config
   ∨ relative_path cwd root_path (Path.join_all root_path p) f ∈ ignored_files config
   ∨ ((Path.splitext f).2 ≠ "" ∧ (Path.splitext f).2 ∈ ignored_extensions config)
   ∨ spec_matches spec (relative_path cwd root_path (Path.join_all root_path p) f) = true) →
  Path.join (Path.join_all root_path p) f ∉ discover_files cwd root_path config spec t.
Proof.
  intros Hwf Hat Hfa Hig.
  intros (p' & f' & Hat' & _ & Hinc & E)%elem_of_discover_files.
  destruct (file_at_valid _ _ _ Hwf Hat) as [Hp Hf].
  destruct (file_at_valid _ _ _ Hwf Hat') as [Hp' Hf'].
  apply full_path_inj in E as [<- <-]; auto.
  unfold file_included in Hinc. rewrite Hfa in Hinc.
  destruct (_ && _); [done|].
  destruct Hig as [H|[H|[[Hne H]|H]]].
  - unfold is_ignored in Hinc. by rewrite (bool_decide_eq_true_2 _ H) in Hinc.
  - unfold is_ignored in Hinc.
    by rewrite (bool_decide_eq_true_2 _ H), orb_true_r in Hinc.
  - unfold is_ignored in Hinc. rewrite (bool_decide_eq_true_2 _ H) in Hinc.
    destruct ((Path.splitext f).2); [done|]. simpl in Hinc.
    by rewrite orb_true_r in Hinc.
  - rewrite H in Hinc. by destruct (is_ignored _ _ _ _).
Qed.

Lemma ignored_file_is_excluded_witness :
  ("/proj/src/debug.trace"
     ∉ discover_files "/" "/proj" default_policy (Some spec_trace) layered_tree)
  ∧ ("/proj/notes.txt" ∉ discover_files "/" "/proj" layered_policy None layered_tree).
Proof.
  split.
  - apply (ignored_file_is_excluded "/" "/proj" default_policy (Some spec_trace)
             layered_tree ["src"] "debug.trace").
    + reflexivity.
    + eapply file_below; [apply list_elem_of_here|].
      constructor. apply list_elem_of_further, list_elem_of_here.
    + vm_compute. reflexivity.
    + right. right. right. vm_compute. reflexivity.
  - apply (ignored_file_is_excluded "/" "/proj" layered_policy None
             layered_tree [] "notes.txt").
    + reflexivity.
    + constructor. apply list_elem_of_further, list_elem_of_here.
    + vm_compute. reflexivity.
    + left. apply (bool_decide_unpack _). vm_compute. exact I.
Defined.

Section Monotone.
Variable cwd root_path : string.
Variable spec : option PathSpec.

Lemma bool_decide_mono (x : string) (S1 S2 : gset string) :
  S1 ⊆ S2 → bool_decide (x ∈ S2) = false → bool_decide (x ∈ S1) = false.
Proof. intros Hs H%bool_decide_eq_false. apply bool_decide_eq_false. set_solver. Qed.

Lemma dir_pruned_mono c1 c2 dirpath d :
  ignored_dirs c1 ⊆ ignored_dirs c2 →
  dir_pruned cwd root_path c2 spec dirpath d = false →
  dir_pruned cwd root_path c1 spec dirpath d = false.
Proof.
  intros Hs. unfold dir_pruned. rewrite !orb_false_iff.
  intros [[H1 H2] H3]. eauto using bool_decide_mono.
Qed.

Lemma path_kept_mono c1 c2 top p :
  ignored_dirs c1 ⊆ ignored_dirs c2 →
  path_kept cwd root_path c2 spec top p = true →
  path_kept cwd root_path c1 spec top p = true.
Proof.
  intros Hs. revert top. induction p as [|d p IH]; intros top; [done|]. simpl.
  rewrite !andb_true_iff, !negb_true_iff. intros [Hd Hk].
  eauto using dir_pruned_mono.
Qed.

Lemma file_included_mono c1 c2 dirpath f :
  ignores_more c1 c2 →
  file_included cwd root_path c2 spec dirpath f = true →
  file_included cwd root_path c1 spec dirpath f = true.
Proof.
  intros (Had & Haf & Hae & Hid & Hif & Hie).
  unfold file_included, is_force_allowed, allowed_paths, is_allowed, allowed_paths.
  rewrite Had, Haf, Hae.
  destruct (_ || _); [done|]. destruct (_ && _); [done|].
  destruct (is_ignored c2 _ _ _) eqn:E2; [done|].
  assert (is_ignored c1 f (relative_path cwd root_path dirpath f) (Path.splitext f).2
          = false) as ->; [|done].
  unfold is_ignored in *. rewrite !orb_false_iff in *.
  destruct E2 as [[H1 H2] H3]. split_and!; eauto using bool_decide_mono.
  destruct (Str.nonempty _); [|done]. simpl in *. eauto using bool_decide_mono.
Qed.

End Monotone.

(** X6. Ignoring more never finds more: if two policies allow the same
    and the second ignores at least what the first ignores, every path
    found under the second is found under the first. *)
Theorem more_ignores_fewer_files cwd root_path c1 c2 spec t full :
  ignores_more c1 c2 →
  full ∈ discover_files cwd root_path c2 spec t →
  full ∈ discover_files cwd root_path c1 spec t.
Proof.
  intros Hle (p & f & Hat & Hk & Hi & ->)%elem_of_discover_files.
  apply elem_of_discover_files. exists p, f. split_and!; auto.
  - destruct Hle as (_ & _ & _ & Hid & _). by eapply path_kept_mono.
  - by eapply file_included_mono.
Qed.

Lemma more_ignores_fewer_files_witness :
  "/proj/src/main.py" ∈ discover_files "/" "/proj" default_policy None layered_tree.
Proof.
  apply (more_ignores_fewer_files "/" "/proj" default_policy layered_policy None
           layered_tree "/proj/src/main.py").
  - unfold ignores_more, default_policy, layered_policy.
    cbn [allowed_dirs allowed_files allowed_extensions
         ignored_dirs ignored_files ignored_extensions].
    split_and!; [reflexivity|reflexivity|reflexivity|apply union_subseteq_r..].
  - apply (bool_decide_unpack _). vm_compute. exact I.
Defined.

Lemma is_allowed_mono (A B : gset string) c rel :
  A ⊆ B →
  is_allowed (set_allowed_dirs A c) rel = true →
  is_allowed (set_allowed_dirs B c) rel = true.
Proof.
  intros Hs. unfold is_allowed, allowed_paths. cbn [allowed_dirs set_allowed_dirs].
  rewrite !existsb_exists. intros (x & Hx & Hp). exists x. split; [|done].
  apply in_map_iff in Hx as (a & <- & Ha%list_elem_of_In%elem_of_elements).
  apply in_map_iff. exists a. split; [done|].
  apply list_elem_of_In, elem_of_elements. set_solver.
Qed.

(** X7. [allowed_dirs] only restricts: whatever is found under a set of
    allowed directories is found with no such set, and, between two
    non-empty sets, under the larger one. *)
Theorem allowed_dirs_only_restricts cwd root_path c spec t (A B : gset string) full :
  full ∈ discover_files cwd root_path (set_allowed_dirs A c) spec t →
  full ∈ discover_files cwd root_path (set_allowed_dirs ∅ c) spec t
  ∧ (A ≠ ∅ → A ⊆ B →
     full ∈ discover_files cwd root_path (set_allowed_dirs B c) spec t).
Proof.
  intros (p & f & Hat & Hk & Hi & ->)%elem_of_discover_files. split.
  - apply elem_of_discover_files. exists p, f. split_and!; auto.
    revert Hi. unfold file_included.
    change (is_force_allowed (set_allowed_dirs ∅ c)) with (is_force_allowed (set_allowed_dirs A c)).
    change (is_ignored (set_allowed_dirs ∅ c)) with (is_ignored (set_allowed_dirs A c)).
    destruct (is_force_allowed _ _ _); [done|].
    replace (allowed_paths (set_allowed_dirs ∅ c)) with (@nil string)
      by (symmetry; by apply allowed_paths_nil).
    rewrite (bool_decide_eq_true_2 (@nil string = [])) by reflexivity.
    cbn [negb andb]. by destruct (_ && _).
  - intros HA HAB. apply elem_of_discover_files. exists p, f. split_and!; auto.
    revert Hi. unfold file_included.
    change (is_force_allowed (set_allowed_dirs B c)) with (is_force_allowed (set_allowed_dirs A c)).
    change (is_ignored (set_allowed_dirs B c)) with (is_ignored (set_allowed_dirs A c)).
    destruct (is_force_allowed _ _ _); [done|].
    rewrite (bool_decide_eq_false_2 (allowed_paths (set_allowed_dirs A c) = []))
      by (by rewrite allowed_paths_nil).
    rewrite (bool_decide_eq_false_2 (allowed_paths (set_allowed_dirs B c) = []))
      by (rewrite allowed_paths_nil; cbn; set_solver).
    cbn [negb andb].
    destruct (is_allowed (set_allowed_dirs A c) _) eqn:E; [|done].
    by rewrite (is_allowed_mono A B c _ HAB E).
Qed.

Lemma allowed_dirs_only_restricts_witness :
  ("/proj/src/a.py"
     ∈ discover_files "/" "/proj" (set_allowed_dirs {[ "src" ]} prefix_policy) None prefix_tree)
  ∧ ("/proj/src/a.py"
       ∈ discover_files "/" "/proj" (set_allowed_dirs ∅ prefix_policy) None prefix_tree)
  ∧ ("/proj/src/a.py"
       ∈ discover_files "/" "/proj" (set_allowed_dirs {[ "src"; "other" ]} prefix_policy)
           None prefix_tree).
Proof.
  assert (Hin : "/proj/src/a.py"
                  ∈ discover_files "/" "/proj" (set_allowed_dirs {[ "src" ]} prefix_policy)
                      None prefix_tree).
  { apply (bool_decide_unpack _). vm_compute. exact I. }
  split; [exact Hin|].
  destruct (allowed_dirs_only_restricts "/" "/proj" prefix_policy None prefix_tree
              {[ "src" ]} {[ "src"; "other" ]} "/proj/src/a.py" Hin) as [H0 HB].
  split; [exact H0|]. apply HB.
  - apply (bool_decide_unpack _). vm_compute. exact I.
  - apply (bool_decide_unpack _). vm_compute. exact I.
Defined.

(** A matcher without patterns is no matcher ([if spec:] is false for
    it): [discover_files] returns what it returns for [None]. *)
Lemma empty_matcher_is_no_matcher cwd root_path config s t :
  spec_len s = 0%nat →
  discover_files cwd root_path config (Some s) t
  = discover_files cwd root_path config None t.
Proof. destruct s as [n m]. simpl. intros ->. reflexivity. Qed.

(** X8. Below an absolute root, splitting what [os.path.join] built
    gives the names back: the relative path [discover_files] tests, for
    a directory as for a file, and the one [main] prints, is the list of
    names from the root joined by "/", whatever the current directory
    and however the root is spelled. *)
Theorem relpath_of_join_is_names cwd root_path p name :
  Path.isabs root_path = true →
  Forall (λ d, valid_name d = true) p → valid_name name = true →
  Str.replace Path.sep "/"
    (Path.relpath cwd (Path.join (Path.join_all root_path p) name) root_path)
  = rel_string p name.
Proof. intros. by apply relative_path_rel_string. Qed.

Lemma relpath_of_join_is_names_witness :
  Str.replace Path.sep "/"
    (Path.relpath "/home/u"
       (Path.join (Path.join_all "/srv//proj/../proj/" ["src"; "pkg"]) "mod.py")
       "/srv//proj/../proj/")
  = "src/pkg/mod.py".
Proof.
  apply (relpath_of_join_is_names "/home/u" "/srv//proj/../proj/" ["src"; "pkg"] "mod.py").
  - reflexivity.
  - repeat constructor.
  - reflexivity.
Defined.

(** ** Order of the result *)

Section WalkOrder.
Variable cwd root_path : string.
Variable config : policy.
Variable spec : option PathSpec.

Lemma dir_pruned_empty top d :
  dir_pruned cwd root_path empty_policy None top d = false.
Proof.
  unfold dir_pruned. cbn [ignored_dirs empty_policy spec_matches].
  by rewrite !bool_decide_eq_false_2 by apply not_elem_of_empty.
Qed.

Lemma file_included_empty top f :
  file_included cwd root_path empty_policy None top f = true.
Proof.
  unfold file_included, is_force_allowed, is_ignored.
  cbn [allowed_files allowed_extensions ignored_files ignored_extensions empty_policy
       spec_matches].
  rewrite !bool_decide_eq_false_2 by apply not_elem_of_empty.
  rewrite !andb_false_r. cbn [orb].
  replace (allowed_paths empty_policy) with (@nil string)
    by (symmetry; by apply allowed_paths_nil).
  by rewrite (bool_decide_eq_true_2 (@nil string = [])) by reflexivity.
Qed.

Lemma files_appended_empty top files :
  files_appended cwd root_path empty_policy None top files = map (Path.join top) files.
Proof.
  unfold files_appended. f_equal. induction files as [|f files IH]; [done|].
  rewrite filter_cons_True by (by rewrite file_included_empty). by rewrite IH.
Qed.

Lemma files_appended_sublist top files :
  files_appended cwd root_path config spec top files
  `sublist_of` map (Path.join top) files.
Proof.
  unfold files_appended. induction files as [|f files IH]; [done|].
  destruct (file_included cwd root_path config spec top f) eqn:E.
  - rewrite filter_cons_True by (by rewrite E). simpl. by apply sublist_skip.
  - rewrite filter_cons_False by (rewrite E; intros []). simpl. by apply sublist_cons.
Qed.

(** The filters only take away: the walk under any policy is a
    subsequence of the walk that filters nothing. *)
Lemma walk_sublist top t :
  concat (os_walk (walk_body cwd root_path config spec) top t)
  `sublist_of` concat (os_walk (walk_body cwd root_path empty_policy None) top t).
Proof.
  revert top. induction t as [entries files IH] using dir_ind. intros top.
  cbn [os_walk concat walk_body fst snd]. apply sublist_app.
  { rewrite files_appended_empty. apply files_appended_sublist. }
  assert (Hall : ∀ e, e ∈ entries →
            bool_decide (e.1 ∈ prune_dirnames cwd root_path empty_policy None top
                                 (map fst entries)) = true).
  { intros e He. apply bool_decide_eq_true, elem_of_prune_dirnames.
    split; [|apply dir_pruned_empty].
    apply list_elem_of_In, in_map. by apply list_elem_of_In. }
  generalize (prune_dirnames cwd root_path config spec top (map fst entries)).
  revert Hall.
  generalize (prune_dirnames cwd root_path empty_policy None top (map fst entries)).
  intros kept0 Hall kept1.
  induction IH as [|e es He Hes IHes]; [done|].
  cbn [flat_map]. rewrite !concat_app. apply sublist_app.
  - rewrite (Hall e) by apply list_elem_of_here.
    destruct (bool_decide (e.1 ∈ kept1)); [|apply sublist_nil_l].
    destruct e as [d [sub|]]; simpl in *; [apply He|done].
  - apply IHes. intros e' He'. apply Hall. by apply list_elem_of_further.
Qed.

End WalkOrder.

(** X9. The filters never reorder and never invent: under any policy
    and matcher the result is a subsequence of what the walk yields when
    nothing is filtered, so the files come in the order of [os.walk], a
    directory's own files before those of its sub-directories. *)
Theorem result_follows_walk_order cwd root_path config spec t :
  discover_files cwd root_path config spec t
  `sublist_of` discover_files cwd root_path empty_policy None t.
Proof. apply walk_sublist. Qed.

Example unfiltered_walk_order :
  discover_files "/" "/proj" empty_policy None layered_tree
  = ["/proj/setup.py"; "/proj/notes.txt"; "/proj/src/main.py"; "/proj/src/debug.trace";
     "/proj/src/gen/out.py"; "/proj/tests/test_main.py"].
Proof. vm_compute. reflexivity. Qed.

(** ** Runs of [main]: failures and the files written *)

Section NoRaise.

Lemma no_raise_ret {A} (a : A) : no_raise (mret a).
Proof. intros w. by eexists _, _. Qed.

Lemma no_raise_bind {A B} (m : M A) (k : A → M B) :
  no_raise m → (∀ a, no_raise (k a)) → no_raise (m ≫= k).
Proof.
  intros Hm Hk w. destruct (Hm w) as (a & w1 & E). rewrite bind_run, E. apply Hk.
Qed.

Lemma no_raise_log l msg : no_raise (log l msg).
Proof. intros w. by eexists _, _. Qed.

Lemma no_raise_set_copy r : no_raise (set_copy r).
Proof. intros w. by eexists _, _. Qed.

Lemma no_raise_set_of_user_or_default uc key dflt :
  no_raise (set_of_user_or_default uc key dflt).
Proof.
  unfold set_of_user_or_default. destruct (uc !! key); [|apply no_raise_set_copy].
  intros w. by eexists _, _.
Qed.

Lemma no_raise_update_from_user uc key r : no_raise (update_from_user uc key r).
Proof. intros w. by eexists _, _. Qed.

(** Whatever it finds, [load_config] returns a configuration. *)
Lemma no_raise_load_config env root_path : no_raise (load_config env root_path).
Proof.
  unfold load_config.
  apply no_raise_bind; [|intros config].
  { unfold default_config.
    repeat (apply no_raise_bind; [apply no_raise_set_copy|intros ?]).
    apply no_raise_ret. }
  cbv zeta.
  destruct (e_tomllib env).
  - destruct (e_toml env _) as [|err|data].
    + apply no_raise_bind; [apply no_raise_log|intros _]. apply no_raise_ret.
    + repeat (apply no_raise_bind; [apply no_raise_log|intros _]). apply no_raise_ret.
    + apply no_raise_bind; [apply no_raise_log|intros _].
      destruct (negb _).
      * apply no_raise_bind; [apply no_raise_log|intros _].
        repeat (apply no_raise_bind; [apply no_raise_set_of_user_or_default|intros ?]).
        repeat (apply no_raise_bind; [apply no_raise_update_from_user|intros ?]).
        apply no_raise_ret.
      * apply no_raise_bind; [apply no_raise_log|intros _]. apply no_raise_ret.
  - apply no_raise_bind; [apply no_raise_log|intros _]. apply no_raise_ret.
Qed.

End NoRaise.

Lemma last_log_snoc (lg : list (level * string)) x : last (lg ++ [x]) = Some x.
Proof. apply last_snoc. Qed.

(** X10. [main] never lets an exception out.  When the root is not a
    directory it only logs an ERROR.  When the [.gitignore] cannot be
    loaded, or files were found but the output cannot be opened, the run
    returns normally, the last log record is the ERROR carrying the
    cause, and no file has been created or written. *)
Theorem main_reports_failures env a w :
  (main env a w).1 = Ok ()
  ∧ (e_dir env (Path.abspath (e_cwd env) (arg_root_directory a)) = None →
     ∃ msg, (main env a w).2
            = {| w_heap := w_heap w; w_log := w_log w ++ [(ERROR, msg)];
                 w_files := w_files w |})
  ∧ (∀ tree err,
        e_dir env (Path.abspath (e_cwd env) (arg_root_directory a)) = Some tree →
        e_gitignore env
          (Path.join (Path.abspath (e_cwd env) (arg_root_directory a)) ".gitignore")
        = GitignoreInvalid err →
        w_files (main env a w).2 = w_files w
        ∧ last (w_log (main env a w).2)
          = Some (ERROR, "An unexpected error occurred: " +:+ err))
  ∧ (∀ tree files,
        e_dir env (Path.abspath (e_cwd env) (arg_root_directory a)) = Some tree →
        (discover_phase env (Path.abspath (e_cwd env) (arg_root_directory a)) tree w).1
        = Ok files →
        files ≠ [] →
        e_writable env
          (output_file_of a
             (Path.basename (Path.abspath (e_cwd env) (arg_root_directory a)))) = false →
        w_files (main env a w).2 = w_files w
        ∧ ∃ cause, last (w_log (main env a w).2)
                   = Some (ERROR, "An unexpected error occurred: " +:+ cause)).
Proof.
  split_and!.
  - unfold main. cbv zeta. destruct (e_dir env _) as [tree|]; [|done].
    unfold try_except.
    match goal with |- (match ?m with _ => _ end).1 = _ =>
      by destruct m as [[[]|e] w'] end.
  - intros Hdir. unfold main. cbv zeta. rewrite Hdir. by eexists.
  - intros tree err Hdir Hgi.
    assert (Hphase : ∃ w2, discover_phase env
                             (Path.abspath (e_cwd env) (arg_root_directory a)) tree w
                           = (Raise err, w2) ∧ w_files w2 = w_files w).
    { unfold discover_phase. rewrite bind_run.
      pose proof (load_config_files env
                    (Path.abspath (e_cwd env) (arg_root_directory a)) w) as Hf.
      destruct (no_raise_load_config env
                  (Path.abspath (e_cwd env) (arg_root_directory a)) w)
        as (c & w1 & E).
      rewrite E in Hf |- *. simpl in Hf. cbv zeta.
      rewrite bind_run. cbn [log]. rewrite bind_run.
      unfold load_gitignore_spec. rewrite Hgi. rewrite bind_run. cbn [log raise].
      eexists. split; [reflexivity|done]. }
    destruct Hphase as (w2 & Hphase & Hf).
    unfold main. cbv zeta. rewrite Hdir. unfold try_except.
    rewrite bind_run, Hphase. cbn [log snd w_files w_log].
    split; [done|]. apply last_snoc.
  - intros tree files Hdir Hrun Hne Hw. unfold main. cbv zeta. rewrite Hdir.
    unfold try_except. rewrite bind_run.
    pose proof (discover_phase_files env
                  (Path.abspath (e_cwd env) (arg_root_directory a)) tree w) as Hf.
    destruct (discover_phase env _ tree w) as [r w1]. simpl in Hrun, Hf. subst r.
    cbv zeta. rewrite bool_decide_eq_false_2 by done.
    unfold write_phase. cbv zeta. rewrite bind_run. unfold open_write. rewrite Hw.
    cbn [raise log snd w_files w_log]. split; [done|]. eexists. apply last_snoc.
Qed.

Lemma main_reports_failures_witness :
  (w_files (main env_bad_gitignore run_args initial_world).2 = ∅
   ∧ last (w_log (main env_bad_gitignore run_args initial_world).2)
     = Some (ERROR, "An unexpected error occurred: "
                    +:+ "'utf-8' codec can't decode byte 0xff in position 0: invalid start byte"))
  ∧ (w_files (main env_read_only run_args initial_world).2 = ∅
     ∧ ∃ cause, last (w_log (main env_read_only run_args initial_world).2)
                = Some (ERROR, "An unexpected error occurred: " +:+ cause)).
Proof.
  split.
  - apply (proj1 (proj2 (proj2 (main_reports_failures env_bad_gitignore run_args
                                  initial_world))) (Dir [] ["a.py"])).
    + reflexivity.
    + reflexivity.
  - apply (proj2 (proj2 (proj2 (main_reports_failures env_read_only run_args
                                  initial_world))) (Dir [] ["a.py"]) ["/proj/a.py"]).
    + reflexivity.
    + vm_compute. reflexivity.
    + discriminate.
    + reflexivity.
Defined.

Section WritesOnly.
Variable out : string.

Lemma writes_only_same {A} (m : M A) :
  (∀ w, w_files (m w).2 = w_files w) → writes_only out m.
Proof. intros H w path _. by rewrite H. Qed.

Lemma writes_only_bind {A B} (m : M A) (k : A → M B) :
  writes_only out m → (∀ a, writes_only out (k a)) → writes_only out (m ≫= k).
Proof.
  intros Hm Hk w path Hne. rewrite bind_run.
  specialize (Hm w path Hne). destruct (m w) as [[a|e] w1]; simpl in *; [|done].
  by rewrite Hk.
Qed.

Lemma writes_only_try_except {A} (m : M A) (h : string → M A) :
  writes_only out m → (∀ e, writes_only out (h e)) → writes_only out (try_except m h).
Proof.
  intros Hm Hh w path Hne. unfold try_except.
  specialize (Hm w path Hne). destruct (m w) as [[a|e] w1]; simpl in *; [done|].
  by rewrite Hh.
Qed.

Lemma writes_only_log l msg : writes_only out (log l msg).
Proof. by apply writes_only_same. Qed.

Lemma writes_only_write text : writes_only out (write out text).
Proof. intros w path Hne. simpl. by rewrite lookup_insert_ne. Qed.

Lemma writes_only_open_write env : writes_only out (open_write out env).
Proof.
  unfold open_write. destruct (e_writable env out); [|by apply writes_only_same].
  intros w path Hne. simpl. by rewrite lookup_insert_ne.
Qed.

Lemma writes_only_write_one env root_directory r full_path :
  writes_only out (write_one env root_directory out r full_path).
Proof.
  unfold write_one. destruct (e_read env full_path) as [bytes|].
  - destruct (utf8_decode Ignore bytes).
    + apply writes_only_bind; [apply writes_only_write|intros _].
      by apply writes_only_same.
    + destruct r; [|by apply writes_only_same].
      apply writes_only_bind; [apply writes_only_log|intros _].
      by apply writes_only_same.
  - apply writes_only_bind; [apply writes_only_log|intros _].
    by apply writes_only_same.
Qed.

Lemma writes_only_write_all env root_directory files : ∀ r,
  writes_only out (write_all env root_directory out r files).
Proof.
  induction files as [|full_path rest IH]; intros r; simpl.
  - by apply writes_only_same.
  - apply writes_only_bind; [apply writes_only_write_one|intros r']. apply IH.
Qed.

Lemma writes_only_write_phase env root_directory files :
  writes_only out (write_phase env root_directory out files).
Proof.
  unfold write_phase. cbv zeta.
  apply writes_only_bind; [apply writes_only_open_write|intros _].
  apply writes_only_bind; [apply writes_only_write|intros _].
  apply writes_only_bind; [apply writes_only_log|intros _].
  apply writes_only_bind; [apply writes_only_write_all|intros _].
  apply writes_only_log.
Qed.

End WritesOnly.

(** X11. A run writes to one path at most, the output file: every other
    file of the process is after the run what it was before, whatever
    the project holds and whatever fails on the way. *)
Theorem main_writes_only_the_output env a w path :
  path ≠ output_file_of a
           (Path.basename (Path.abspath (e_cwd env) (arg_root_directory a))) →
  w_files (main env a w).2 !! path = w_files w !! path.
Proof.
  revert w path.
  change (writes_only
            (output_file_of a
               (Path.basename (Path.abspath (e_cwd env) (arg_root_directory a))))
            (main env a)).
  unfold main. cbv zeta. destruct (e_dir env _) as [tree|]; [|apply writes_only_log].
  apply writes_only_try_except; [|intros; apply writes_only_log].
  apply writes_only_bind.
  - apply writes_only_same. apply discover_phase_files.
  - intros files. cbv zeta.
    destruct (bool_decide (files = [])); [apply writes_only_log|].
    apply writes_only_write_phase.
Qed.

Lemma main_writes_only_the_output_witness :
  w_files (main env_binary {| arg_root_directory := "/proj"; arg_output := Some "out.md" |}
             {| w_heap := module_heap; w_log := [];
                w_files := {[ "proj_context.md" := "kept" ]} |}).2
    !! "proj_context.md"
  = Some "kept".
Proof.
  rewrite (main_writes_only_the_output env_binary
             {| arg_root_directory := "/proj"; arg_output := Some "out.md" |}
             {| w_heap := module_heap; w_log := [];
                w_files := {[ "proj_context.md" := "kept" ]} |} "proj_context.md").
  - reflexivity.
  - vm_compute. discriminate.
Defined.



Example block_for_unreadable : block_for env_binary "/proj" "/proj/locked.py" = "".
Proof. reflexivity. Qed.

(** X13. What [main] hands to the writing loop.  With no usable user
    configuration and no [.gitignore], discovery runs under the built-in
    defaults and without a matcher.  With a user section and a
    [.gitignore], it runs under the merged policy and the compiled
    matcher. *)
Theorem main_discovers_under_loaded_policy env root_directory tree w :
  take 6 (w_heap w) = module_heap →
  (no_user_config env root_directory →
   e_gitignore env (Path.join root_directory ".gitignore") = GitignoreAbsent →
   (discover_phase env root_directory tree w).1
   = Ok (discover_files (e_cwd env) root_directory default_policy None tree))
  ∧ (∀ data s,
        e_tomllib env = true →
        e_toml env (Path.join root_directory CONFIG_FILENAME) = TomlData data →
        user_config_of data ≠ ∅ →
        e_gitignore env (Path.join root_directory ".gitignore") = GitignoreSpec s →
        (discover_phase env root_directory tree w).1
        = Ok (discover_files (e_cwd env) root_directory
                (merged_policy (user_config_of data)) (Some s) tree)).
Proof.
  intros Hh. pose proof (defaults_allocated _ Hh) as Hlen. split.
  - intros Hno Hgi. unfold discover_phase. rewrite bind_run.
    destruct (load_config_no_user_config env root_directory w Hno Hlen) as [lg ->].
    cbv zeta. rewrite bind_run. cbn [log]. rewrite bind_run.
    unfold load_gitignore_spec. rewrite Hgi. cbn [mret M_ret ret].
    unfold discovered. cbn [fst w_heap]. by rewrite resolve_with_copies.
  - intros data s Ht Hd Hne Hgi. unfold discover_phase. rewrite bind_run.
    destruct (load_config_user_section env root_directory w data Hh Ht Hd Hne)
      as (c & w' & -> & Hres & _).
    cbv zeta. rewrite bind_run. cbn [log]. rewrite bind_run.
    unfold load_gitignore_spec. rewrite Hgi. rewrite bind_run. cbn [log mret M_ret ret].
    unfold discovered. cbn [fst w_heap]. by rewrite Hres.
Qed.

Lemma main_discovers_under_loaded_policy_witness :
  (discover_phase env_nothing_found "/proj" layered_tree initial_world).1
  = Ok (discover_files "/home/u" "/proj" default_policy None layered_tree)
  ∧ (discover_phase env_configured "/proj" layered_tree initial_world).1
    = Ok (discover_files "/home/u" "/proj"
            (merged_policy (user_config_of sample_pyproject)) (Some spec_trace)
            layered_tree).
Proof.
  split.
  - apply (proj1 (main_discovers_under_loaded_policy env_nothing_found "/proj"
                    layered_tree initial_world eq_refl)).
    + by right.
    + reflexivity.
  - apply (proj2 (main_discovers_under_loaded_policy env_configured "/proj"
                    layered_tree initial_world eq_refl) sample_pyproject spec_trace).
    + reflexivity.
    + reflexivity.
    + intros H.
      apply (f_equal (λ m : gmap string (list string), m !! "allowed_dirs")) in H.
      vm_compute in H. discriminate H.
    + reflexivity.
Defined.

Example configured_run_discovers :
  (discover_phase env_configured "/proj" layered_tree initial_world).1
  = Ok ["/proj/src/main.py"; "/proj/src/gen/out.py"].
Proof. vm_compute. reflexivity. Qed.

(** ** No file twice *)

Section NoDupWalk.
Variable cwd root_path : string.
Variable config : policy.
Variable spec : option PathSpec.

Lemma join_valid_inj top f f' :
  valid_name f = true → valid_name f' = true →
  Path.join top f = Path.join top f' → f = f'.
Proof.
  intros Hf Hf' E.
  by destruct (full_path_inj top [] f [] f' (Forall_nil_2 _) Hf (Forall_nil_2 _) Hf' E).
Qed.

Lemma files_appended_NoDup top files :
  forallb valid_name files = true → NoDup files →
  NoDup (files_appended cwd root_path config spec top files).
Proof.
  intros Hv Hnd. unfold files_appended.
  change (map (Path.join top) ?l) with (Path.join top <$> l).
  apply NoDup_fmap_2_strong; [|by apply NoDup_filter].
  intros f f' [_ Hf]%list_elem_of_filter [_ Hf']%list_elem_of_filter E.
  rewrite forallb_forall in Hv.
  apply (join_valid_inj top); auto using Hv; apply Hv; by apply list_elem_of_In.
Qed.

Lemma elem_of_sub_walks top (kept : list string) es x :
  x ∈ concat (flat_map
                (λ e : string * option dir,
                   if bool_decide (e.1 ∈ kept)
                   then match e.2 with
                        | Some sub =>
                            os_walk (walk_body cwd root_path config spec)
                                    (Path.join top e.1) sub
                        | None => []
                        end
                   else []) es) →
  ∃ d sub p f, (d, Some sub) ∈ es ∧ file_at sub p f
               ∧ x = Path.join (Path.join_all top (d :: p)) f.
Proof.
  intros (l & Hl & Hx)%list_elem_of_In%in_concat.
  apply in_flat_map in Hl as ([d [sub|]] & He & Hl); simpl in Hl;
    (destruct (bool_decide (d ∈ kept)); [|by destruct Hl]); [|by destruct Hl].
  assert (Hin : x ∈ concat (os_walk (walk_body cwd root_path config spec)
                                    (Path.join top d) sub)).
  { apply list_elem_of_In, in_concat. eauto. }
  apply elem_of_walk in Hin as (p & f & Hat & _ & _ & ->).
  exists d, sub, p, f. split_and!; auto. by apply list_elem_of_In.
Qed.

Lemma walk_NoDup t : ∀ top,
  wf_dir t = true → unique_names t = true →
  NoDup (concat (os_walk (walk_body cwd root_path config spec) top t)).
Proof.
  induction t as [entries files IH] using dir_ind. intros top Hwf Hun.
  cbn [wf_dir unique_names] in Hwf, Hun.
  apply andb_true_iff in Hwf as [Hvf Hve].
  apply andb_true_iff in Hun as [Hun Hue].
  apply andb_true_iff in Hun as [Hnf%bool_decide_eq_true Hne%bool_decide_eq_true].
  cbn [os_walk concat walk_body fst snd].
  generalize (prune_dirnames cwd root_path config spec top (map fst entries)).
  intros kept. apply NoDup_app. split_and!.
  - by apply files_appended_NoDup.
  - intros x (f & Hf & _ & ->)%elem_of_files_appended
             (d & sub & p & f' & He & Hat & E)%elem_of_sub_walks.
    rewrite forallb_forall in Hvf, Hve.
    apply list_elem_of_In, Hvf in Hf.
    apply list_elem_of_In, Hve in He. simpl in He.
    apply andb_true_iff in He as [Hd Hsub].
    destruct (file_at_valid _ _ _ Hsub Hat) as [Hp Hf'].
    change (Path.join top f) with (Path.join (Path.join_all top []) f) in E.
    apply full_path_inj in E as [E _]; auto. done.
  - clear Hvf Hnf. induction IH as [|e es He Hes IHes]; [constructor|].
    cbn [flat_map]. rewrite concat_app.
    cbn [forallb map] in Hve, Hue.
    apply andb_true_iff in Hve as [Hve1 Hve].
    apply andb_true_iff in Hue as [Hue1 Hue].
    apply NoDup_cons in Hne as [Hd Hne].
    apply NoDup_app. split_and!.
    + destruct (bool_decide (e.1 ∈ kept)); [|constructor].
      destruct e as [d [sub|]]; simpl in *; [|constructor].
      apply andb_true_iff in Hve1 as [_ Hsub]. by apply He.
    + intros x Hx (d' & sub' & p' & f' & He' & Hat' & E')%elem_of_sub_walks.
      destruct e as [d [sub|]]; simpl in *;
        (destruct (bool_decide (d ∈ kept)); [|by apply elem_of_nil in Hx]);
        [|by apply elem_of_nil in Hx].
      apply elem_of_walk in Hx as (p & f & Hat & _ & _ & E).
      apply andb_true_iff in Hve1 as [Hdv Hsub].
      destruct (file_at_valid _ _ _ Hsub Hat) as [Hp Hf].
      rewrite forallb_forall in Hve.
      pose proof He' as He''. apply list_elem_of_In, Hve in He''. simpl in He''.
      apply andb_true_iff in He'' as [Hdv' Hsub'].
      destruct (file_at_valid _ _ _ Hsub' Hat') as [Hp' Hf'].
      rewrite E in E'.
      change (Path.join_all (Path.join top d) p) with (Path.join_all top (d :: p)) in E'.
      change (Path.join_all (Path.join top d') p')
        with (Path.join_all top (d' :: p')) in E'.
      apply full_path_inj in E' as [E' _]; auto.
      injection E' as -> _. apply Hd.
      apply list_elem_of_In, in_map_iff. exists (d', Some sub').
      split; [done|by apply list_elem_of_In].
    + by apply IHes.
Qed.

End NoDupWalk.

(** X14. On a tree in which no directory lists a name twice,
    [discover_files] returns no path twice: every file gets at most one
    block in the output. *)
Theorem discover_files_no_duplicates cwd root_path config spec t :
  wf_dir t = true → unique_names t = true →
  NoDup (discover_files cwd root_path config spec t).
Proof. intros. by apply walk_NoDup. Qed.

Lemma discover_files_no_duplicates_witness :
  NoDup (discover_files "/" "/proj" default_policy None layered_tree).
Proof.
  apply (discover_files_no_duplicates "/" "/proj" default_policy None layered_tree).
  - reflexivity.
  - vm_compute. reflexivity.
Defined.

(** ** The extension of a relative path *)

Section SplitextRel.

Lemma rfind_from_app c a b i acc :
  Str.rfind_from c (a +:+ b) i acc
  = Str.rfind_from c b (i + Z.of_nat (String.length a)) (Str.rfind_from c a i acc).
Proof.
  revert i acc. induction a as [|x a IH]; intros i acc.
  - rewrite app_empty_l. simpl. by rewrite Z.add_0_r.
  - rewrite app_cons. cbn [Str.rfind_from String.length]. rewrite IH.
    f_equal. lia.
Qed.

Lemma rfind_from_present c s i acc :
  Str.contains c s = true →
  Str.rfind_from c s i acc = i + Str.rfind c s.
Proof.
  unfold Str.rfind. revert i acc. induction s as [|x s IH]; intros i acc Hs; [done|].
  cbn [Str.rfind_from Str.contains] in *.
  destruct (Str.contains c s) eqn:Ec.
  - rewrite (IH (i + 1) _ eq_refl), (IH (0 + 1) _ eq_refl). lia.
  - rewrite orb_false_r in Hs. rewrite Hs.
    rewrite !rfind_from_absent by done. lia.
Qed.

Lemma rfind_from_upper c s i acc :
  Str.rfind_from c s i acc = acc
  ∨ Str.rfind_from c s i acc < i + Z.of_nat (String.length s).
Proof.
  revert i acc. induction s as [|x s IH]; intros i acc; [by left|].
  cbn [Str.rfind_from String.length]. destruct (Ascii.eqb x c).
  - right. destruct (IH (i + 1) i) as [->|]; lia.
  - destruct (IH (i + 1) acc) as [->|]; [by left|right; lia].
Qed.

Lemma rfind_from_lower c s i acc :
  Str.contains c s = true → i ≤ Str.rfind_from c s i acc.
Proof.
  revert i acc. induction s as [|x s IH]; intros i acc Hs; [done|].
  cbn [Str.rfind_from Str.contains] in *. destruct (Ascii.eqb x c).
  - destruct (rfind_from_bounds c s (i + 1) i) as [->|]; lia.
  - simpl in Hs. specialize (IH (i + 1) acc Hs). lia.
Qed.

Lemma rfind_nonneg c s : Str.contains c s = true → 0 ≤ Str.rfind c s.
Proof. intros Hs. by apply rfind_from_lower. Qed.

Lemma drop_app_length a b k :
  Str.drop (String.length a + k) (a +:+ b) = Str.drop k b.
Proof. induction a as [|x a IH]; [done|]. rewrite app_cons. simpl. apply IH. Qed.

Lemma splitext_scan_app a b i m :
  Path.splitext_scan (a +:+ b) (String.length a + i) m = Path.splitext_scan b i m.
Proof.
  revert i. induction m as [|m IH]; intros i; [done|].
  cbn [Path.splitext_scan]. unfold Str.at_. rewrite drop_app_length.
  destruct (negb _); [done|].
  replace (S (String.length a + i)) with (String.length a + S i)%nat by lia.
  apply IH.
Qed.

(** The directory part of a relative path: empty, or ending in "/". *)
Lemma rel_string_split p f : rel_string p f = rel_string p "" +:+ f.
Proof.
  induction p as [|d p IH]; [done|]. simpl. rewrite IH.
  rewrite app_assoc'. by rewrite app_cons.
Qed.

Lemma rel_string_dir_end p :
  p ≠ [] → ∃ s0, rel_string p "" = s0 +:+ String Path.sep "".
Proof.
  induction p as [|d p IH]; [done|]. intros _. simpl.
  destruct p as [|d' p].
  - by exists d.
  - destruct IH as [s0 E]; [done|]. rewrite E.
    exists (d +:+ String Path.sep s0). rewrite app_assoc'. by rewrite app_cons.
Qed.

Lemma rfind_sep_dir p :
  Str.rfind Path.sep (rel_string p "") = Z.of_nat (String.length (rel_string p "")) - 1.
Proof.
  destruct p as [|d p]; [done|].
  destruct (rel_string_dir_end (d :: p)) as [s0 E]; [done|]. rewrite E.
  unfold Str.rfind. rewrite rfind_from_app. cbn [Str.rfind_from].
  rewrite Ascii.eqb_refl.
  assert (String.length (s0 +:+ String Path.sep "") = S (String.length s0)) as ->.
  { clear E. induction s0 as [|x s0 IH]; [done|]. rewrite app_cons. simpl. by rewrite IH. }
  lia.
Qed.

(** [splitext] sees the same extension on the relative path as on the
    file name. *)
Lemma splitext_rel_string p f :
  Str.contains Path.sep f = false →
  (Path.splitext (rel_string p f)).2 = (Path.splitext f).2.
Proof.
  intros Hf. rewrite rel_string_split.
  set (P := rel_string p ""). unfold Path.splitext.
  assert (Hsep : Str.rfind Path.sep (P +:+ f) = Z.of_nat (String.length P) - 1).
  { unfold Str.rfind. rewrite rfind_from_app, rfind_from_absent by done.
    apply rfind_sep_dir. }
  assert (Hsepf : Str.rfind Path.sep f = -1).
  { unfold Str.rfind. by rewrite rfind_from_absent. }
  rewrite Hsep, Hsepf.
  destruct (Str.contains Path.extsep f) eqn:Hdot.
  - assert (Hd : Str.rfind Path.extsep (P +:+ f)
                 = Z.of_nat (String.length P) + Str.rfind Path.extsep f).
    { unfold Str.rfind at 1. rewrite rfind_from_app.
      rewrite rfind_from_present by done. lia. }
    pose proof (rfind_nonneg _ _ Hdot) as Hk.
    rewrite Hd.
    replace (Z.of_nat (String.length P) - 1 <? Z.of_nat (String.length P)
             + Str.rfind Path.extsep f) with true by (symmetry; apply Z.ltb_lt; lia).
    replace (-1 <? Str.rfind Path.extsep f) with true by (symmetry; apply Z.ltb_lt; lia).
    cbn [andb].
    replace (Z.to_nat (Z.of_nat (String.length P) - 1 + 1)) with (String.length P + 0)%nat
      by lia.
    replace (Z.to_nat (Z.of_nat (String.length P) + Str.rfind Path.extsep f
                       - (Z.of_nat (String.length P) - 1 + 1)))
      with (Z.to_nat (Str.rfind Path.extsep f)) by lia.
    replace (Z.to_nat (Str.rfind Path.extsep f - (-1 + 1)))
      with (Z.to_nat (Str.rfind Path.extsep f)) by lia.
    change (Z.to_nat (-1 + 1)) with 0%nat.
    rewrite splitext_scan_app.
    destruct (Path.splitext_scan f 0 _); [|done]. cbn [snd].
    replace (Z.to_nat (Z.of_nat (String.length P) + Str.rfind Path.extsep f))
      with (String.length P + Z.to_nat (Str.rfind Path.extsep f))%nat by lia.
    apply drop_app_length.
  - assert (Hd : Str.rfind Path.extsep (P +:+ f) = Str.rfind Path.extsep P).
    { unfold Str.rfind. by rewrite rfind_from_app, rfind_from_absent. }
    assert (Hdf : Str.rfind Path.extsep f = -1).
    { unfold Str.rfind. by rewrite rfind_from_absent. }
    rewrite Hd, Hdf. cbn [Z.ltb Z.compare andb snd].
    replace (Z.of_nat (String.length P) - 1 <? Str.rfind Path.extsep P) with false;
      [done|].
    symmetry. apply Z.ltb_ge. unfold Str.rfind.
    destruct (rfind_from_upper Path.extsep P 0 (-1)) as [->|]; lia.
Qed.

End SplitextRel.

(** X15. The block [main] writes for a discovered file is headed by the
    names leading to the file joined by "/", and its language tag is the
    extension the file filter saw on the bare name, without its leading
    dots: [splitext] of the relative path and of the file name agree. *)
Theorem block_heading_and_language cwd root_path p f content :
  Path.isabs root_path = true →
  Forall (λ d, valid_name d = true) p → valid_name f = true →
  block_of cwd root_path (Path.join (Path.join_all root_path p) f) content
  = file_block (rel_string p f) (Str.lstrip "." (Path.splitext f).2) content.
Proof.
  intros Habs Hp Hf. rewrite block_heading.
  rewrite relative_path_rel_string by done.
  by rewrite splitext_rel_string by by apply valid_name_no_sep.
Qed.

Lemma block_heading_and_language_witness :
  block_of "/home/u" "/proj" (Path.join (Path.join_all "/proj" ["pkg.d"; "sub"]) "..mod.tar.gz")
    "data"
  = file_block "pkg.d/sub/..mod.tar.gz" "gz" "data".
Proof.
  apply (block_heading_and_language "/home/u" "/proj" ["pkg.d"; "sub"] "..mod.tar.gz" "data").
  - reflexivity.
  - repeat constructor.
  - reflexivity.
Defined.

(** ** [load_config] run after run *)

(** [load_config] as a function of the configuration file alone. *)
Lemma load_config_policy env root_path w :
  take 6 (w_heap w) = module_heap →
  ∃ c w', load_config env root_path w = (Ok c, w')
          ∧ resolve (w_heap w') c = policy_of_env env root_path.
Proof.
  intros Hh. pose proof (defaults_allocated _ Hh) as Hlen. unfold policy_of_env.
  destruct (e_tomllib env) eqn:Et.
  - destruct (e_toml env (Path.join root_path CONFIG_FILENAME)) as [|err|data] eqn:Ef.
    1,2: destruct (load_config_no_user_config env root_path w) as [lg Hrun];
      [right; by rewrite Ef|done|];
      eexists _, _; split; [exact Hrun|];
      cbn [w_heap]; by rewrite resolve_with_copies.
    case_bool_decide as He.
    + destruct (load_config_no_user_config env root_path w) as [lg Hrun];
        [right; by rewrite Ef|done|].
      eexists _, _. split; [exact Hrun|].
      cbn [w_heap]. by rewrite resolve_with_copies.
    + destruct (load_config_user_section env root_path w data Hh Et Ef He)
        as (c & w' & Hrun & Hres & _).
      by exists c, w'.
  - destruct (load_config_no_user_config env root_path w) as [lg Hrun];
      [by left|done|].
    eexists _, _. split; [exact Hrun|].
    cbn [w_heap]. by rewrite resolve_with_copies.
Qed.

(** X16. [load_config] can be run again: after a first run (which left
    its own sets in the heap) a second run on the same configuration
    file returns a configuration denoting the same six sets, and so does
    any later one, since each run leaves the defaults as it found them. *)
Theorem load_config_repeatable env root_path w :
  take 6 (w_heap w) = module_heap →
  ∃ c1 w1 c2 w2,
    load_config env root_path w = (Ok c1, w1)
    ∧ load_config env root_path w1 = (Ok c2, w2)
    ∧ resolve (w_heap w2) c2 = resolve (w_heap w1) c1
    ∧ take 6 (w_heap w2) = module_heap.
Proof.
  intros Hh.
  destruct (load_config_policy env root_path w Hh) as (c1 & w1 & Hrun1 & Hres1).
  assert (Hh1 : take 6 (w_heap w1) = module_heap).
  { apply (prefix_take module_heap).
    pose proof (keeps_load_config module_heap env root_path w) as [Hk _].
    - exists (drop 6 (w_heap w)). rewrite <- Hh. by rewrite take_drop.
    - by rewrite Hrun1 in Hk. }
  destruct (load_config_policy env root_path w1 Hh1) as (c2 & w2 & Hrun2 & Hres2).
  exists c1, w1, c2, w2. split_and!; auto.
  - congruence.
  - apply (prefix_take module_heap).
    pose proof (keeps_load_config module_heap env root_path w1) as [Hk _].
    + exists (drop 6 (w_heap w1)). rewrite <- Hh1. by rewrite take_drop.
    + by rewrite Hrun2 in Hk.
Qed.

Lemma load_config_repeatable_witness :
  ∃ c1 w1 c2 w2,
    load_config (env_with_toml (TomlData sample_pyproject)) "/proj" initial_world
    = (Ok c1, w1)
    ∧ load_config (env_with_toml (TomlData sample_pyproject)) "/proj" w1 = (Ok c2, w2)
    ∧ resolve (w_heap w2) c2 = resolve (w_heap w1) c1
    ∧ take 6 (w_heap w2) = module_heap.
Proof.
  apply (load_config_repeatable (env_with_toml (TomlData sample_pyproject)) "/proj"
           initial_world).
  reflexivity.
Defined.
